(** * Verification model of skilleye_ip_changer.py (ONVIF camera IP changer)

    Shallow embedding of the parts of [ONVIFIPChanger] that drive discovery,
    the read-only ONVIF queries and the IP-change engine
    ([execute_ip_change]).  Response bodies are ASCII text ([list ascii]);
    the [re] calls of the source are run by a small backtracking matcher
    that follows Python's greedy, leftmost search order. *)

From Stdlib Require Import String Ascii List ZArith Lia Bool.
Import ListNotations.

(** ** Text: Python [str] operations used by the source *)
Module Text.

Definition text := list ascii.
Definition t (s : string) : text := list_ascii_of_string s.

(** The double quote character, written by code point. *)
Definition dq : ascii := ascii_of_nat 34.

(** [str.lower] restricted to ASCII. *)
Definition lower_char (c : ascii) : ascii :=
  let n := nat_of_ascii c in
  if (65 <=? n) && (n <=? 90) then ascii_of_nat (n + 32) else c.

Definition lower (s : text) : text := map lower_char s.

Fixpoint starts_with (p s : text) : bool :=
  match p, s with
  | [], _ => true
  | a :: p', b :: s' => Ascii.eqb a b && starts_with p' s'
  | _ :: _, [] => false
  end.

(** Python's [p in s] on strings. *)
Fixpoint contains (p s : text) : bool :=
  starts_with p s || match s with [] => false | _ :: s' => contains p s' end.

Definition text_eqb (a b : text) : bool :=
  if list_eq_dec ascii_dec a b then true else false.

(** Python's [x in xs] on a list of strings. *)
Definition mem (x : text) (xs : list text) : bool := existsb (text_eqb x) xs.

(** First occurrence of [sep]: the text before it and the text after it. *)
Fixpoint split_once (sep s : text) : option (text * text) :=
  if starts_with sep s then Some ([], skipn (length sep) s)
  else match s with
       | [] => None
       | c :: s' =>
           match split_once sep s' with
           | Some (a, b) => Some (c :: a, b)
           | None => None
           end
       end.

Fixpoint py_split_fuel (n : nat) (sep s : text) : list text :=
  match n with
  | 0 => [s]
  | S n' =>
      match split_once sep s with
      | Some (a, b) => a :: py_split_fuel n' sep b
      | None => [s]
      end
  end.

(** [s.split(sep)] for a non-empty separator: every split consumes at least
    one character, so [length s + 1] rounds are enough. *)
Definition py_split (sep s : text) : list text :=
  py_split_fuel (S (length s)) sep s.

(** ** Regular expressions: the fragment used by the source

    A pattern is a sequence of single-character classes and greedy
    [class*] loops; [class+] is [class class*].  [mitems] is a
    continuation-passing backtracking matcher: a star first tries the
    longest run, then shorter ones, as Python's [re] does. *)

Inductive item :=
| IChar (p : ascii -> bool)
| IStar (p : ascii -> bool).

Definition pattern := list item.

Fixpoint run_len (p : ascii -> bool) (s : text) : nat :=
  match s with
  | c :: s' => if p c then S (run_len p s') else 0
  | [] => 0
  end.

Fixpoint try_down {A} (n : nat) (s : text) (f : text -> option A) : option A :=
  match f (skipn n s) with
  | Some a => Some a
  | None => match n with 0 => None | S n' => try_down n' s f end
  end.

Fixpoint mitems {A} (its : pattern) (s : text) (k : text -> option A) : option A :=
  match its with
  | [] => k s
  | IChar p :: r =>
      match s with
      | c :: s' => if p c then mitems r s' k else None
      | [] => None
      end
  | IStar p :: r => try_down (run_len p s) s (fun s' => mitems r s' k)
  end.

(** [re.search(p, s) is not None]: some position where [p] matches. *)
Fixpoint search (p : pattern) (s : text) : bool :=
  match mitems p s (fun _ => Some tt) with
  | Some _ => true
  | None => match s with [] => false | _ :: s' => search p s' end
  end.

(** A pattern with one capture group: [pre (grp) post]. *)
Record rx := { rx_pre : pattern; rx_grp : pattern; rx_post : pattern }.

Definition match_at (r : rx) (s : text) : option (text * text) :=
  mitems (rx_pre r) s (fun s1 =>
    mitems (rx_grp r) s1 (fun s2 =>
      mitems (rx_post r) s2 (fun s3 =>
        Some (firstn (length s1 - length s2) s1, s3)))).

Fixpoint findall_fuel (n : nat) (r : rx) (s : text) : list text :=
  match n with
  | 0 => []
  | S n' =>
      match match_at r s with
      | Some (g, rest) => g :: findall_fuel n' r rest
      | None => match s with [] => [] | _ :: s' => findall_fuel n' r s' end
      end
  end.

(** [re.findall(r, s)] for a pattern whose matches are never empty (all
    patterns of the source start with a literal character). *)
Definition findall (r : rx) (s : text) : list text :=
  findall_fuel (S (length s)) r s.

(** Pattern builders. *)
Definition chr (c : ascii) : item := IChar (fun x => Ascii.eqb x c).
Definition lit (s : string) : pattern := map chr (t s).
(** Under [re.IGNORECASE]. *)
Definition chr_i (c : ascii) : item :=
  IChar (fun x => Ascii.eqb (lower_char x) (lower_char c)).
Definition lit_i (s : string) : pattern := map chr_i (t s).
Definition not_c (c : ascii) : ascii -> bool := fun x => negb (Ascii.eqb x c).
Definition one_of (cs : string) : ascii -> bool :=
  fun x => existsb (Ascii.eqb x) (t cs).
Definition plus (p : ascii -> bool) : pattern := [IChar p; IStar p].

Definition is_digit (x : ascii) : bool :=
  let n := nat_of_ascii x in (48 <=? n) && (n <=? 57).

End Text.
Import Text.

(** ** The regular expressions of the source *)
Module Patterns.

Definition tT : ascii -> bool := one_of "Tt".
Definition nN : ascii -> bool := one_of "Nn".
Definition digit_or_dot (x : ascii) : bool := is_digit x || Ascii.eqb x ".".

(** [<tt:token>([^<]+)</tt:token>] (get_network_interfaces) *)
Definition if_token_rx : rx :=
  {| rx_pre := lit "<tt:token>"; rx_grp := plus (not_c "<");
     rx_post := lit "</tt:token>" |}.

(** [token=Q([^Q]+)Q], Q the double quote (get_network_interfaces, fallback) *)
Definition if_token_attr_rx : rx :=
  {| rx_pre := lit "token=" ++ [chr dq]; rx_grp := plus (not_c dq);
     rx_post := [chr dq] |}.

(** [<tt:Address>([0-9.]+)</tt:Address>] *)
Definition address_rx : rx :=
  {| rx_pre := lit "<tt:Address>"; rx_grp := plus digit_or_dot;
     rx_post := lit "</tt:Address>" |}.

(** [<[^>]*token=Q([^Q]+)Q[^>]*>], Q the double quote *)
Definition tokens1_rx : rx :=
  {| rx_pre := [chr "<"; IStar (not_c ">")] ++ lit "token=" ++ [chr dq];
     rx_grp := plus (not_c dq);
     rx_post := [chr dq; IStar (not_c ">"); chr ">"] |}.

(** [<[^>]*[Tt]oken[^>]*>([^<]+)</[^>]*[Tt]oken[^>]*>] *)
Definition tokens2_rx : rx :=
  {| rx_pre := [chr "<"; IStar (not_c ">"); IChar tT] ++ lit "oken" ++
               [IStar (not_c ">"); chr ">"];
     rx_grp := plus (not_c "<");
     rx_post := lit "</" ++ [IStar (not_c ">"); IChar tT] ++ lit "oken" ++
                [IStar (not_c ">"); chr ">"] |}.

(** [<[^>]*[Nn]ame[^>]*>([^<]+)</[^>]*[Nn]ame[^>]*>] *)
Definition tokens3_rx : rx :=
  {| rx_pre := [chr "<"; IStar (not_c ">"); IChar nN] ++ lit "ame" ++
               [IStar (not_c ">"); chr ">"];
     rx_grp := plus (not_c "<");
     rx_post := lit "</" ++ [IStar (not_c ">"); IChar nN] ++ lit "ame" ++
                [IStar (not_c ">"); chr ">"] |}.

(** [<tt:PrefixLength>([0-9]+)</tt:PrefixLength>] *)
Definition prefix_rx : rx :=
  {| rx_pre := lit "<tt:PrefixLength>"; rx_grp := plus is_digit;
     rx_post := lit "</tt:PrefixLength>" |}.

(** [<ns2:HwAddress>([^<]+)</ns2:HwAddress>] *)
Definition hw_rx : rx :=
  {| rx_pre := lit "<ns2:HwAddress>"; rx_grp := plus (not_c "<");
     rx_post := lit "</ns2:HwAddress>" |}.

(** [success_patterns] of execute_ip_change, searched with IGNORECASE. *)
Definition success_patterns : list pattern :=
  [ [chr_i "<"; IStar (not_c ">")] ++ lit_i "SetNetworkInterfacesResponse";
    lit_i "<ns8:SetNetworkInterfacesResponse";
    lit_i "<tds:SetNetworkInterfacesResponse";
    lit_i "RebootNeeded" ].

(** [failure_patterns] of execute_ip_change, searched with IGNORECASE. *)
Definition failure_patterns : list pattern :=
  [ [chr_i "<"; IStar (not_c ">")] ++ lit_i "fault" ++ [IStar (not_c ">"); chr_i ">"];
    [chr_i ">"; IStar (not_c "<")] ++ lit_i "error" ++ [IStar (not_c "<"); chr_i "<"];
    [chr_i ">"; IStar (not_c "<")] ++ lit_i "unauthorized" ++ [IStar (not_c "<"); chr_i "<"];
    [chr_i ">"; IStar (not_c "<")] ++ lit_i "forbidden" ++ [IStar (not_c "<"); chr_i "<"];
    [chr_i ">"; IStar (not_c "<")] ++ lit_i "invalid" ++ [IStar (not_c "<"); chr_i "<"] ].

End Patterns.
Import Patterns.

(** ** Data model *)

(** [class Camera] *)
Record camera := {
  ip : text;
  name : text;
  model : text;
  manufacturer : text;
  reachable : bool
}.

(** [Camera(ip, name, model, manufacturer)], the last three defaulting to
    the empty string. *)
Definition Camera (ip0 name0 model0 manufacturer0 : text) : camera :=
  {| ip := ip0;
     name := match name0 with [] => t "Camera-" ++ ip0 | _ => name0 end;
     model := model0;
     manufacturer := manufacturer0;
     reachable := true |}.

(** The dict returned by [get_current_network_config]. *)
Record net_config := {
  addresses : list text;
  interface_tokens : list text;
  dhcp_enabled : bool;
  prefix_lengths : list text;
  full_response : text
}.

Definition empty_config : net_config :=
  {| addresses := []; interface_tokens := []; dhcp_enabled := false;
     prefix_lengths := []; full_response := [] |}.

(** [list(set(xs))]: the order of a Python set is unspecified; the model
    keeps one copy of each element.  The engine only uses the set's
    elements and size, and its first element as the request's token. *)
Definition py_set_list (xs : list text) : list text :=
  nodup (list_eq_dec ascii_dec) xs.

(** Body of [get_current_network_config] for an HTTP 200 response. *)
Definition parse_network_config (content : text) : net_config :=
  let lc := lower content in
  {| addresses := findall address_rx content;
     interface_tokens :=
       py_set_list (findall tokens1_rx content ++ findall tokens2_rx content ++
                    findall tokens3_rx content);
     dhcp_enabled :=
       contains (t "dhcp>true") lc ||
       contains (t "dhcp=" ++ [dq] ++ t "true" ++ [dq]) lc;
     prefix_lengths := findall prefix_rx content;
     full_response := content |}.

(** Body of [get_network_interfaces] for an HTTP 200 response. *)
Definition parse_interfaces (content : text) : list text :=
  let interfaces := findall if_token_rx content in
  let interfaces :=
    match interfaces with
    | [] => findall if_token_attr_rx content
    | _ => interfaces
    end in
  match interfaces with [] => [t "eth0"] | _ => interfaces end.

(** Body of [get_camera_info] for an HTTP 200 response. *)
Definition parse_camera_info (ip0 content : text) : camera :=
  let field (tag : string) :=
    if contains (t tag) content
    then nth 0 (py_split (t "<") (nth 1 (py_split (t tag) content) [])) []
    else [] in
  Camera ip0 (t "Camera-" ++ ip0) (field "Model>"%string) (field "Manufacturer>"%string).

(** ** Effects: the device as a scripted environment

    Every [requests.post] consumes the next scripted reply, every
    [check_onvif_port] the next scripted probe answer; the engine makes
    finitely many calls in an order fixed by the earlier answers, so any
    device behaviour is one script.  An exhausted script answers with a
    connection error, resp. a closed port.  [time.sleep] and every request
    and probe are recorded in an event log (newest first). *)

(** Exceptions raised by [requests] (and the one [NameError] of the source). *)
Inductive exc := Timeout | ConnectionError | OtherError | NameError.

Inductive post_result :=
| Resp (status : Z) (body : text)
| Fail (e : exc).

(** The SOAP requests the program sends. *)
Inductive req_kind :=
| KGetDeviceInformation
| KGetNetworkInterfaces
| KDisableDhcp        (* disable_dhcp_first *)
| KSetDhcpMode        (* set_dhcp_mode *)
| KSetPrimary         (* execute_ip_change *)
| KSetLinkLocal       (* try_alternative_with_linklocal_preserved *)
| KSetAlternative.    (* try_alternative_ip_change *)

Inductive event :=
| EPost (k : req_kind) (target : text) (r : post_result)
| EProbe (target : text) (port : Z) (open : bool)
| ESleep (secs : Z).

Record world := {
  posts : list post_result;
  probes : list bool;
  cameras : list camera;          (* self.cameras *)
  events : list event
}.

Inductive res (A : Type) := Ok (a : A) | Err (e : exc).
Arguments Ok {A} a.
Arguments Err {A} e.

Definition M (A : Type) := world -> res A * world.

Definition ret {A} (a : A) : M A := fun w => (Ok a, w).
Definition bind {A B} (m : M A) (k : A -> M B) : M B :=
  fun w => match m w with
           | (Ok a, w') => k a w'
           | (Err e, w') => (Err e, w')
           end.
Definition raise {A} (e : exc) : M A := fun w => (Err e, w).

(** [try: m except: h] *)
Definition try_except {A} (m : M A) (h : exc -> M A) : M A :=
  fun w => match m w with
           | (Err e, w') => h e w'
           | r => r
           end.

Notation "x <- m ;; k" := (bind m (fun x => k))
  (at level 61, m at next level, right associativity).
Notation "m ;; k" := (bind m (fun _ => k))
  (at level 61, right associativity).

Definition log (e : event) (w : world) : world :=
  {| posts := posts w; probes := probes w; cameras := cameras w;
     events := e :: events w |}.

(** [requests.post(url, ...)] for [url = http://target/onvif/device_service]. *)
Definition post (k : req_kind) (target : text) : M (Z * text) :=
  fun w =>
    let '(r, rest) := match posts w with
                      | r :: rest => (r, rest)
                      | [] => (Fail ConnectionError, [])
                      end in
    let w' := log (EPost k target r)
                {| posts := rest; probes := probes w; cameras := cameras w;
                   events := events w |} in
    match r with
    | Resp status body => (Ok (status, body), w')
    | Fail e => (Err e, w')
    end.

(** [check_onvif_port(ip, port, timeout)]: its bare [except] makes it total. *)
Definition check_onvif_port (target : text) (port : Z) : M bool :=
  fun w =>
    let '(b, rest) := match probes w with
                      | b :: rest => (b, rest)
                      | [] => (false, [])
                      end in
    (Ok b, log (EProbe target port b)
             {| posts := posts w; probes := rest; cameras := cameras w;
                events := events w |}).

Definition sleep (secs : Z) : M unit := fun w => (Ok tt, log (ESleep secs) w).

(** ** Read-only queries (Device Inspector) *)

(** [get_camera_info(ip, username, password)] *)
Definition get_camera_info (ip0 : text) : M (option camera) :=
  try_except
    (r <- post KGetDeviceInformation ip0 ;;
     let '(status, content) := r in
     if (status =? 200)%Z then ret (Some (parse_camera_info ip0 content))
     else ret None)
    (fun _ => ret None).

(** [get_network_interfaces(ip, username, password)] *)
Definition get_network_interfaces (ip0 : text) : M (list text) :=
  try_except
    (r <- post KGetNetworkInterfaces ip0 ;;
     let '(status, content) := r in
     if (status =? 200)%Z then ret (parse_interfaces content)
     else ret [t "eth0"])
    (fun _ => ret [t "eth0"]).

(** [get_current_network_config(ip, username, password)] *)
Definition get_current_network_config (ip0 : text) : M net_config :=
  try_except
    (r <- post KGetNetworkInterfaces ip0 ;;
     let '(status, content) := r in
     if (status =? 200)%Z then ret (parse_network_config content)
     else ret empty_config)
    (fun _ => ret empty_config).

(** ** Mutating requests *)

(** The exact ONVIF success test:
    [SetNetworkInterfacesResponse in text and RebootNeeded in text]. *)
Definition onvif_success (response_text : text) : bool :=
  contains (t "SetNetworkInterfacesResponse") response_text &&
  contains (t "RebootNeeded") response_text.

(** [disable_dhcp_first(ip, interface_token)] *)
Definition disable_dhcp_first (ip0 interface_token : text) : M bool :=
  try_except
    (r <- post KDisableDhcp ip0 ;;
     let '(status, body) := r in
     ret ((status =? 200)%Z && contains (t "SetNetworkInterfacesResponse") body))
    (fun _ => ret false).

(** [try_alternative_with_linklocal_preserved(old_ip, new_ip, gateway,
    prefix_length, interface_token, hw_address)]; the body it sends carries
    the token, the hardware address when non-empty, and the new settings. *)
Definition try_alternative_with_linklocal_preserved
    (old_ip new_ip gateway : text) (prefix_length : Z)
    (interface_token hw_address : text) : M bool :=
  try_except
    (r <- post KSetLinkLocal old_ip ;;
     let '(status, response_text) := r in
     if (status =? 200)%Z then ret (onvif_success response_text)
     else ret false)
    (fun _ => ret false).

(** [set_dhcp_mode(ip, enable_dhcp)]; [proceed] is the user's answer to the
    [Proceed ...? (y/N)] prompt. *)
Definition set_dhcp_mode (ip0 : text) (enable_dhcp proceed : bool) : M bool :=
  current_config <- get_current_network_config ip0 ;;
  interfaces <- get_network_interfaces ip0 ;;
  let interface_token := match interfaces with x :: _ => x | [] => t "eth0" end in
  if negb proceed then ret false else
  try_except
    (r <- post KSetDhcpMode ip0 ;;
     let '(status, response_text) := r in
     if (status =? 200)%Z then
       if onvif_success response_text then
         sleep 5 ;;
         new_config <- get_current_network_config ip0 ;;
         ret (Bool.eqb (dhcp_enabled new_config) enable_dhcp)
       else ret false
     else ret false)
    (fun _ => ret false).

(** ** Verification *)

(** One attempt of the loop of [verify_ip_change]: [true] when it returns. *)
Definition verify_attempt (new_ip : text) : M bool :=
  try_except
    (reachable_now <- check_onvif_port new_ip 80 ;;
     found <- (if reachable_now then
                 test_camera <- get_camera_info new_ip ;;
                 ret (match test_camera with Some _ => true | None => false end)
               else ret false) ;;
     if found then ret true else (sleep 1 ;; ret false))
    (fun _ => ret false).

(** [for attempt in range(timeout): ...; return False] *)
Fixpoint verify_attempts (new_ip : text) (n : nat) : M bool :=
  match n with
  | 0 => ret false
  | S n' =>
      found <- verify_attempt new_ip ;;
      if found then ret true else verify_attempts new_ip n'
  end.

(** [verify_ip_change(new_ip, timeout)] *)
Definition verify_ip_change (new_ip : text) (timeout : nat) : M bool :=
  verify_attempts new_ip timeout.

(** ** The registry update *)

Definition set_ip (c : camera) (new_ip : text) : camera :=
  {| ip := new_ip; name := name c; model := model c;
     manufacturer := manufacturer c; reachable := reachable c |}.

(** [for camera in self.cameras: if camera.ip == old_ip: camera.ip = new_ip; break] *)
Fixpoint update_first (old_ip new_ip : text) (cams : list camera) : list camera :=
  match cams with
  | [] => []
  | c :: rest =>
      if text_eqb (ip c) old_ip then set_ip c new_ip :: rest
      else c :: update_first old_ip new_ip rest
  end.

Definition update_cameras (old_ip new_ip : text) : M unit :=
  fun w => (Ok tt, {| posts := posts w; probes := probes w;
                      cameras := update_first old_ip new_ip (cameras w);
                      events := events w |}).

(** ** The IP-change engine: [execute_ip_change]

    The value returned by [execute_ip_change] is a Python object:
    [Some b] is the boolean [b], [None] is Python's [None] (the function
    falling off its end). *)
Definition pyret := option bool.

(** The test at lines 1016-1017: any fault marker in the lowered body. *)
Definition fault_marker (response_text : text) : bool :=
  let response_lower := lower response_text in
  contains (t "soap:fault") response_lower || contains (t "s:fault") response_lower ||
  contains (t "fault") response_lower.

Definition has_success (response_text : text) : bool :=
  existsb (fun p => search p response_text) success_patterns.

Definition has_failure (response_text : text) : bool :=
  existsb (fun p => search p response_text) failure_patterns.

(** Lines 1012-1073 for an HTTP 200 reply: [false] where the code returns
    [False], [true] where it goes on to the settle delay.  ([reboot_needed]
    is only printed.) *)
Definition accept_200 (response_text : text) : bool :=
  if fault_marker response_text then false
  else
    let hs := has_success response_text in
    let hf := has_failure response_text in
    let hos := onvif_success response_text in
    if hf && negb hos then false
    else if negb hs && negb hos then false
    else true.

(** [alt_token] is never assigned in [execute_ip_change]: reading it raises
    [NameError]. *)
Definition read_alt_token : M text := raise NameError.

(** Lines 1121-1154: the alternative attempt, [true] when it returns [True]. *)
Definition alternative_attempt (old_ip new_ip gateway : text) (prefix_length : Z)
    (all_tokens : list text) (current_config : net_config) (still_at_old : bool)
    : M bool :=
  if still_at_old && (1 <? length all_tokens) then
    let hw_address :=
      match full_response current_config with
      | [] => []
      | fr => match findall hw_rx fr with h :: _ => h | [] => [] end
      end in
    alt_token <- read_alt_token ;;
    alt_success <- try_alternative_with_linklocal_preserved
                     old_ip new_ip gateway prefix_length alt_token hw_address ;;
    if alt_success then
      sleep 5 ;;
      post_config <- get_current_network_config old_ip ;;
      if match addresses post_config with [] => false | _ => true end
         && mem new_ip (addresses post_config) then
        ok <- verify_ip_change new_ip 8 ;;
        if ok then update_cameras old_ip new_ip ;; ret true
        else ret false
      else ret false
    else ret false
  else ret false.

(** Lines 1087-1176: after the settle delay. *)
Definition check_after_settle (old_ip new_ip gateway : text) (prefix_length : Z)
    (all_tokens : list text) (current_config : net_config) : M pyret :=
  new_config <- get_current_network_config old_ip ;;
  let config_changed :=
    match addresses new_config with
    | [] => false
    | addrs => mem new_ip addrs
    end in
  still_at_old <- check_onvif_port old_ip 80 ;;
  if config_changed || negb still_at_old then
    ok <- verify_ip_change new_ip 10 ;;
    if ok then update_cameras old_ip new_ip ;; ret (Some true)
    else ret None
  else
    done <- alternative_attempt old_ip new_ip gateway prefix_length
              all_tokens current_config still_at_old ;;
    if done then ret (Some true) else ret (Some false).

(** Lines 984-1198: the [try] block around the primary request. *)
Definition send_ip_change (old_ip new_ip gateway : text) (prefix_length : Z)
    (all_tokens : list text) (current_config : net_config) : M pyret :=
  try_except
    (r <- post KSetPrimary old_ip ;;
     let '(status, response_text) := r in
     if (status =? 200)%Z then
       if accept_200 response_text then
         sleep 5 ;;
         check_after_settle old_ip new_ip gateway prefix_length all_tokens current_config
       else ret (Some false)
     else if (status =? 401)%Z then ret (Some false)
     else if (status =? 404)%Z then ret (Some false)
     else ret (Some false))
    (fun _ => ret (Some false)).

(** [all_tokens = list(set(interfaces + current_config["interface_tokens"]))],
    with the [["eth0"]] fallback. *)
Definition combine_tokens (interfaces : list text) (current_config : net_config)
    : list text :=
  match py_set_list (interfaces ++ interface_tokens current_config) with
  | [] => [t "eth0"]
  | l => l
  end.

(** Lines 902-943 of [execute_ip_change]: gather the facts, choose the
    token, disable DHCP first when it is reported enabled. *)
Definition prepare_ip_change (old_ip : text) : M (list text * net_config) :=
  current_config <- get_current_network_config old_ip ;;
  interfaces <- get_network_interfaces old_ip ;;
  let all_tokens := combine_tokens interfaces current_config in
  let interface_token := hd [] all_tokens in
  (if dhcp_enabled current_config then
     ok <- disable_dhcp_first old_ip interface_token ;;
     if ok then sleep 2 else ret tt
   else ret tt) ;;
  ret (all_tokens, current_config).

(** [execute_ip_change(old_ip, new_ip, gateway, prefix_length)] *)
Definition execute_ip_change (old_ip new_ip gateway : text) (prefix_length : Z)
    : M pyret :=
  p <- prepare_ip_change old_ip ;;
  let '(all_tokens, current_config) := p in
  send_ip_change old_ip new_ip gateway prefix_length all_tokens current_config.

(** ** Discovery: [scan_network_for_cameras] *)

(** [ipaddress.IPv4Network(network, strict=False)]: an address and a
    prefix length; the host bits of the address are ignored. *)
Record ipv4_network := { net_ip : Z; prefixlen : Z }.

Definition valid_network (n : ipv4_network) : Prop :=
  (0 <= net_ip n < 2 ^ 32)%Z /\ (0 <= prefixlen n <= 32)%Z.

Definition hostmask (n : ipv4_network) : Z := Z.ones (32 - prefixlen n).
Definition netmask (n : ipv4_network) : Z := Z.shiftl (Z.ones (prefixlen n)) (32 - prefixlen n).

Definition network_address (n : ipv4_network) : Z := Z.land (net_ip n) (netmask n).
Definition broadcast_address (n : ipv4_network) : Z :=
  Z.lor (network_address n) (hostmask n).

(** [range(a, b)] on integers. *)
Definition zrange (a b : Z) : list Z :=
  map (fun k => a + Z.of_nat k)%Z (seq 0 (Z.to_nat (b - a))).

(** [IPv4Network.hosts()]: all addresses of a /31, the one address of a
    /32, otherwise [range(network + 1, broadcast)]. *)
Definition hosts (n : ipv4_network) : list Z :=
  if (prefixlen n =? 31)%Z then zrange (network_address n) (broadcast_address n + 1)
  else if (prefixlen n =? 32)%Z then [net_ip n]
  else zrange (network_address n + 1) (broadcast_address n).

(** [str(k)] for a natural number. *)
Fixpoint dec_digits (fuel n : nat) (acc : text) : text :=
  match fuel with
  | 0 => acc
  | S f =>
      let acc' := ascii_of_nat (48 + n mod 10) :: acc in
      if n <? 10 then acc' else dec_digits f (n / 10) acc'
  end.

Definition py_str_nat (n : nat) : text := dec_digits (S n) n [].

(** Byte [k] (0 = least significant) of a 32-bit address. *)
Definition byte_of (k : nat) (x : Z) : Z := ((x / 256 ^ Z.of_nat k) mod 256)%Z.

(** [str(IPv4Address(x))]: the four bytes of [x.to_bytes(4, 'big')] in
    decimal, joined by dots. *)
Definition ipv4_str (x : Z) : text :=
  py_str_nat (Z.to_nat (byte_of 3 x)) ++ "."%char ::
  py_str_nat (Z.to_nat (byte_of 2 x)) ++ "."%char ::
  py_str_nat (Z.to_nat (byte_of 1 x)) ++ "."%char ::
  py_str_nat (Z.to_nat (byte_of 0 x)).

(** [check_ip_ports(ip_str)] of phase 1; [port_open ip port] is
    [check_onvif_port(ip, port, 1.0)]. *)
Definition check_ip_ports (port_open : text -> Z -> bool) (ports : list Z)
    (n : ipv4_network) (x : Z) : option text :=
  if (x =? network_address n)%Z || (x =? broadcast_address n)%Z then None
  else if existsb (port_open (ipv4_str x)) ports then Some (ipv4_str x)
  else None.

(** [get_camera_info] as a function of the device's reply. *)
Definition camera_info_of (ip0 : text) (r : post_result) : option camera :=
  match r with
  | Resp status content =>
      if (status =? 200)%Z then Some (parse_camera_info ip0 content) else None
  | Fail _ => None
  end.

(** [scan_network_for_cameras(network)].  Phase 1 runs in a thread pool and
    collects results in completion order; the model lists them in host
    order.  [query ip username password] is the device's reply to the
    GetDeviceInformation request; [creds] are [self.credentials]. *)
Definition scan_network_for_cameras (port_open : text -> Z -> bool)
    (query : text -> text -> text -> post_result) (creds : text * text)
    (ports : list Z) (n : ipv4_network) : list camera :=
  let open_ips :=
    flat_map (fun x => match check_ip_ports port_open ports n x with
                       | Some s => [s]
                       | None => []
                       end) (hosts n) in
  map (fun ip0 =>
         let cam := camera_info_of ip0 (query ip0 [] []) in
         let cam := match cam with
                    | None => match fst creds with
                              | [] => None
                              | u => camera_info_of ip0 (query ip0 u (snd creds))
                              end
                    | Some _ => cam
                    end in
         match cam with Some c => c | None => Camera ip0 [] [] [] end)
      open_ips.

(** ** Console input and the Python parsing applied to it *)

(** [str.isspace] on the code points 0-255. *)
Definition py_space (c : ascii) : bool :=
  let n := nat_of_ascii c in
  ((9 <=? n) && (n <=? 13)) || ((28 <=? n) && (n <=? 32)) || (n =? 133) || (n =? 160).

Fixpoint drop_while (p : ascii -> bool) (s : text) : text :=
  match s with
  | c :: s' => if p c then drop_while p s' else s
  | [] => []
  end.

(** [s.strip()] *)
Definition strip (s : text) : text :=
  rev (drop_while py_space (rev (drop_while py_space s))).

(** [str.lower] on the code points 0-255: A-Z and the Latin-1 capitals
    (U+00C0..U+00DE except U+00D7). *)
Definition py_lower_char (c : ascii) : ascii :=
  let n := nat_of_ascii c in
  if ((65 <=? n) && (n <=? 90)) || ((192 <=? n) && (n <=? 222) && negb (n =? 215))
  then ascii_of_nat (n + 32) else c.

Definition py_lower (s : text) : text := map py_lower_char s.

(** [answer.strip().lower() in ['y', 'yes']] *)
Definition confirmed (answer : text) : bool :=
  mem (py_lower (strip answer)) [t "y"; t "yes"].

(** [input(prompt)]: the next line typed; [None] is the [EOFError] raised
    when the input has ended. *)
Definition input (lines : list text) : option (text * list text) :=
  match lines with
  | l :: rest => Some (l, rest)
  | [] => None
  end.

(** Whitespace skipped around the digits by [int(s)]: the ASCII whitespace
    and the non-ASCII spaces U+0085 and U+00A0 (U+001C..U+001F are not). *)
Definition int_space (c : ascii) : bool :=
  let n := nat_of_ascii c in
  ((9 <=? n) && (n <=? 13)) || (n =? 32) || (n =? 133) || (n =? 160).

Definition digit_val (c : ascii) : Z := Z.of_nat (nat_of_ascii c - 48).

(** The digits after the first one, an underscore allowed between two
    digits: the value and the number of digits. *)
Fixpoint int_digits (s : text) (acc : Z) (n : nat) : option (Z * nat) :=
  match s with
  | [] => Some (acc, n)
  | c :: s' =>
      if is_digit c then int_digits s' (acc * 10 + digit_val c)%Z (S n)
      else if Ascii.eqb c "_" then
        match s' with
        | d :: s'' =>
            if is_digit d then int_digits s'' (acc * 10 + digit_val d)%Z (S n)
            else None
        | [] => None
        end
      else None
  end.

(** [int(s)] in base 10: surrounding whitespace, an optional sign, digits
    with single underscores between them, at most 4300 digits (the default
    [sys.get_int_max_str_digits()]); [None] is the [ValueError]. *)
Definition py_int (s : text) : option Z :=
  let s := rev (drop_while int_space (rev (drop_while int_space s))) in
  let '(sign, body) :=
    match s with
    | c :: r =>
        if Ascii.eqb c "-" then ((-1)%Z, r)
        else if Ascii.eqb c "+" then (1%Z, r)
        else (1%Z, s)
    | [] => (1%Z, [])
    end in
  match body with
  | d :: r =>
      if is_digit d then
        match int_digits r (digit_val d) 1 with
        | Some (v, n) => if 4300 <? n then None else Some (sign * v)%Z
        | None => None
        end
      else None
  | [] => None
  end.

(** ** [validate_ip]: [ipaddress.IPv4Address] on a string *)

(** [int(s, 10)] on a string of ASCII digits. *)
Definition dec_val (s : text) : nat :=
  fold_left (fun acc c => acc * 10 + (nat_of_ascii c - 48)) s 0.

(** [IPv4Address._parse_octet(octet_str)]; [None] is the [ValueError]. *)
Definition parse_octet (octet_str : text) : option Z :=
  match octet_str with
  | [] => None
  | c :: _ =>
      if negb (forallb is_digit octet_str) then None
      else if 3 <? length octet_str then None
      else if negb (text_eqb octet_str (t "0")) && Ascii.eqb c "0" then None
      else
        let octet_int := Z.of_nat (dec_val octet_str) in
        if (255 <? octet_int)%Z then None else Some octet_int
  end.

(** [IPv4Address._ip_int_from_string(ip_str)]:
    [int.from_bytes(map(_parse_octet, octets), 'big')]. *)
Definition ip_int_from_string (ip_str : text) : option Z :=
  match ip_str with
  | [] => None
  | _ =>
      let octets := py_split (t ".") ip_str in
      if negb (length octets =? 4) then None
      else fold_left (fun acc o =>
                        match acc, parse_octet o with
                        | Some a, Some v => Some (a * 256 + v)%Z
                        | _, _ => None
                        end) octets (Some 0%Z)
  end.

(** [IPv4Address(address)] for a string; [None] is [AddressValueError]. *)
Definition IPv4Address (address : text) : option Z :=
  if contains (t "/") address then None else ip_int_from_string address.

(** [validate_ip(ip)] *)
Definition validate_ip (s : text) : bool :=
  match IPv4Address s with Some _ => true | None => false end.

(** ** [validate_network]: [ipaddress.IPv4Network] on a string *)

(** [int.bit_length()] *)
Definition bit_length (x : Z) : Z :=
  if (x =? 0)%Z then 0%Z else (Z.log2 (Z.abs x) + 1)%Z.

(** [_count_righthand_zero_bits(number, bits)] *)
Definition count_righthand_zero_bits (number bits : Z) : Z :=
  if (number =? 0)%Z then bits
  else Z.min bits (bit_length (Z.land (Z.lnot number) (number - 1))).

(** [IPv4Network._prefix_from_ip_int(ip_int)]; [None] is the [ValueError]
    of a pattern that mixes zeroes and ones. *)
Definition prefix_from_ip_int (ip_int : Z) : option Z :=
  let trailing_zeroes := count_righthand_zero_bits ip_int 32 in
  let prefixlen := (32 - trailing_zeroes)%Z in
  let leading_ones := Z.shiftr ip_int trailing_zeroes in
  let all_ones := (Z.shiftl 1 prefixlen - 1)%Z in
  if (leading_ones =? all_ones)%Z then Some prefixlen else None.

Definition ALL_ONES : Z := (2 ^ 32 - 1)%Z.

(** [IPv4Network._prefix_from_ip_string(ip_str)]: a netmask, else a
    hostmask; [None] is [NetmaskValueError]. *)
Definition prefix_from_ip_string (ip_str : text) : option Z :=
  match ip_int_from_string ip_str with
  | None => None
  | Some ip_int =>
      match prefix_from_ip_int ip_int with
      | Some p => Some p
      | None => prefix_from_ip_int (Z.lxor ip_int ALL_ONES)
      end
  end.

(** [IPv4Network._prefix_from_prefix_string(prefixlen_str)]: for a string
    [isascii() and isdigit()] means non-empty and ASCII digits only. *)
Definition prefix_from_prefix_string (prefixlen_str : text) : option Z :=
  match prefixlen_str with
  | [] => None
  | _ =>
      if negb (forallb is_digit prefixlen_str) then None
      else match py_int prefixlen_str with
           | None => None
           | Some prefixlen =>
               if (0 <=? prefixlen)%Z && (prefixlen <=? 32)%Z then Some prefixlen
               else None
           end
  end.

(** [IPv4Network._make_netmask(arg)] for a string: the prefix length. *)
Definition make_netmask (arg : text) : option Z :=
  match prefix_from_prefix_string arg with
  | Some prefixlen => Some prefixlen
  | None => prefix_from_ip_string arg
  end.

(** [IPv4Network(address, strict=False)] for a string
    ([_split_optional_netmask], then [IPv4Address(addr)] and
    [_make_netmask(mask)], the mask being 32 when absent); the address is
    kept as given, [network_address] masks it.  [None] is
    [AddressValueError] or [NetmaskValueError]. *)
Definition IPv4Network (address : text) : option ipv4_network :=
  match py_split (t "/") address with
  | [addr] =>
      match IPv4Address addr with
      | Some a => Some {| net_ip := a; prefixlen := 32 |}
      | None => None
      end
  | [addr; mask] =>
      match IPv4Address addr, make_netmask mask with
      | Some a, Some p => Some {| net_ip := a; prefixlen := p |}
      | _, _ => None
      end
  | _ => None
  end.

(** [validate_network(network)] *)
Definition validate_network (network : text) : bool :=
  match IPv4Network network with Some _ => true | None => false end.

(** [get_network_range()]: the network returned (and stored as
    [self.current_network]) and the unread input; [None] is the [EOFError]
    of [input]. *)
Fixpoint get_network_range (current_network : text) (lines : list text)
    : option (text * list text) :=
  match lines with
  | [] => None
  | l :: rest =>
      let network := strip l in
      let network := match current_network with
                     | [] => network
                     | _ => match network with [] => current_network | _ => network end
                     end in
      if validate_network network then Some (network, rest)
      else get_network_range current_network rest
  end.

(** ** Menu actions on the camera list *)

(** [select_camera()]: [Some (choice, rest)] with the unread input [rest];
    [None] when [input] raises [EOFError] (only [ValueError] is caught).
    With no cameras nothing is read. *)
Definition select_camera (cams : list camera) (lines : list text)
    : option (option camera * list text) :=
  match cams with
  | [] => Some (None, lines)
  | _ =>
      match input lines with
      | None => None
      | Some (l, rest) =>
          let camera_id := strip l in
          if text_eqb camera_id (t "0") then Some (None, rest)
          else
            match py_int camera_id with
            | None => Some (None, rest)
            | Some v =>
                let idx := (v - 1)%Z in
                if (0 <=? idx)%Z && (idx <? Z.of_nat (length cams))%Z
                then Some (nth_error cams (Z.to_nat idx), rest)
                else Some (None, rest)
            end
      end
  end.









(** [show_detailed_network_info(ip)]: one configuration query; the rest is
    printed ([format_xml] of the full response). *)
Definition show_detailed_network_info (ip0 : text) : M unit :=
  current_config <- get_current_network_config ip0 ;;
  ret tt.

(** [set_dhcp_mode(ip, enable_dhcp)] with its confirmation prompt answered
    by the next line of [lines]; when the input has ended, [input] raises
    [EOFError] (not caught, reported as [OtherError]) after the two
    queries. *)
Definition set_dhcp_mode_prompt (ip0 : text) (enable_dhcp : bool) (lines : list text)
    : M bool :=
  match input lines with
  | Some (confirm, _) => set_dhcp_mode ip0 enable_dhcp (confirmed confirm)
  | None =>
      current_config <- get_current_network_config ip0 ;;
      interfaces <- get_network_interfaces ip0 ;;
      raise OtherError
  end.

(** [manage_dhcp_settings(camera)], its menu choice and the confirmation
    of [set_dhcp_mode] read from [lines]; the [EOFError] of either
    [input] escapes (reported as [OtherError]). *)
Definition manage_dhcp_settings (camera0 : camera) (lines : list text) : M bool :=
  current_config <- get_current_network_config (ip camera0) ;;
  match input lines with
  | None => raise OtherError
  | Some (choice, rest) =>
      let choice := strip choice in
      if text_eqb choice (t "1") then set_dhcp_mode_prompt (ip camera0) true rest
      else if text_eqb choice (t "2") then set_dhcp_mode_prompt (ip camera0) false rest
      else if text_eqb choice (t "3") then show_detailed_network_info (ip camera0) ;; ret false
      else ret false
  end.

(** * Properties *)

(** ** Scripts and basic facts *)

(** The reply the next [requests.post] receives. *)
Definition next_post (w : world) : post_result :=
  match posts w with r :: _ => r | [] => Fail ConnectionError end.

(** A transport failure or a non-200 reply. *)
Definition reply_failed (r : post_result) : Prop :=
  match r with Fail _ => True | Resp status _ => status <> 200%Z end.

(** A script with the given replies and probe answers and an empty log. *)
Definition script (ps : list post_result) (bs : list bool) (cams : list camera) : world :=
  {| posts := ps; probes := bs; cameras := cams; events := [] |}.

Lemma parse_interfaces_nonempty (content : text) : parse_interfaces content <> [].
Proof.
  unfold parse_interfaces.
  destruct (findall if_token_rx content) as [|x l];
    [destruct (findall if_token_attr_rx content)|]; discriminate.
Qed.

(** ** Device Inspector *)

(** C9: the interface-list query never fails and never yields an empty
    list; when the request fails (a transport failure, including no reply
    at all, or a status other than 200) or no token is parsed from the
    reply, the list is exactly the sentinel [["eth0"]]. *)
Theorem get_network_interfaces_never_empty (ip0 : text) (w : world) :
  exists l, fst (get_network_interfaces ip0 w) = Ok l /\ l <> [] /\
    (reply_failed (hd (Fail ConnectionError) (posts w)) -> l = [t "eth0"]) /\
    (forall body, hd (Fail ConnectionError) (posts w) = Resp 200 body ->
       findall if_token_rx body = [] -> findall if_token_attr_rx body = [] ->
       l = [t "eth0"]).
Proof.
  unfold get_network_interfaces, try_except, bind, post, ret, log.
  destruct (posts w) as [|[status body|e] rest]; cbn [hd reply_failed].
  - eexists; split; [reflexivity|]. split; [discriminate|].
    split; [reflexivity|intros body H; discriminate H].
  - destruct (status =? 200)%Z eqn:Es; cbn -[parse_interfaces findall].
    + apply Z.eqb_eq in Es. subst status.
      eexists; split; [reflexivity|]. split; [apply parse_interfaces_nonempty|].
      split; [intros H; contradiction H; reflexivity|].
      intros b Hb T1 T2. injection Hb as <-. unfold parse_interfaces.
      rewrite T1, T2. reflexivity.
    + eexists; split; [reflexivity|]. split; [discriminate|].
      split; [reflexivity|]. intros b Hb. injection Hb as E _.
      subst status. discriminate Es.
  - eexists; split; [reflexivity|]. split; [discriminate|].
    split; [reflexivity|intros body H; discriminate H].
Qed.

(** C8 (as amended): on a transport failure or a non-200 reply, the identity
    query returns [None], the network-config query the empty facts, and the
    interface-list query the sentinel list [["eth0"]]; none raises. *)
Theorem queries_on_failed_reply (ip0 : text) (w : world) :
  reply_failed (next_post w) ->
  fst (get_camera_info ip0 w) = Ok None /\
  fst (get_current_network_config ip0 w) = Ok empty_config /\
  fst (get_network_interfaces ip0 w) = Ok [t "eth0"].
Proof.
  unfold next_post, reply_failed, get_camera_info, get_current_network_config,
    get_network_interfaces, try_except, bind, post, ret, log.
  destruct (posts w) as [|[status body|e] rest]; cbn; intros H; auto.
  rewrite (proj2 (Z.eqb_neq _ _) H). auto.
Qed.

Lemma queries_on_failed_reply_witness :
  reply_failed (next_post (script [Resp 503 []] [] [])) /\
  fst (get_camera_info (t "10.0.0.5") (script [Resp 503 []] [] [])) = Ok None /\
  fst (get_current_network_config (t "10.0.0.5") (script [Resp 503 []] [] [])) =
    Ok empty_config /\
  fst (get_network_interfaces (t "10.0.0.5") (script [Resp 503 []] [] [])) =
    Ok [t "eth0"].
Proof.
  assert (H : reply_failed (next_post (script [Resp 503 []] [] []))).
  { simpl. discriminate. }
  split; [exact H | apply (queries_on_failed_reply (t "10.0.0.5") _ H)].
Defined.

(** C8 is not met as stated: after a failed request the interface-list query
    returns the sentinel [["eth0"]], not an empty collection. *)
Lemma interfaces_failed_reply_not_empty :
  fst (get_network_interfaces (t "10.0.0.5") (script [Resp 503 []] [] [])) <> Ok [].
Proof. vm_compute. discriminate. Qed.

(** ** Frame: which computations leave [self.cameras] alone *)

Definition keeps {A} (m : M A) : Prop := forall w, cameras (snd (m w)) = cameras w.

Lemma keeps_ret {A} (a : A) : keeps (ret a).
Proof. intro w; reflexivity. Qed.

Lemma keeps_raise {A} (e : exc) : keeps (@raise A e).
Proof. intro w; reflexivity. Qed.

Lemma keeps_post k tgt : keeps (post k tgt).
Proof.
  intro w; unfold post.
  destruct (posts w) as [|[s b|e] rest]; reflexivity.
Qed.

Lemma keeps_probe tgt port : keeps (check_onvif_port tgt port).
Proof.
  intro w; unfold check_onvif_port.
  destruct (probes w); reflexivity.
Qed.

Lemma keeps_sleep secs : keeps (sleep secs).
Proof. intro w; reflexivity. Qed.

Lemma keeps_bind {A B} (m : M A) (k : A -> M B) :
  keeps m -> (forall a, keeps (k a)) -> keeps (bind m k).
Proof.
  intros Hm Hk w. unfold bind. specialize (Hm w).
  destruct (m w) as [[a|e] w']; simpl in *; [rewrite Hk|]; auto.
Qed.

Lemma keeps_try {A} (m : M A) (h : exc -> M A) :
  keeps m -> (forall e, keeps (h e)) -> keeps (try_except m h).
Proof.
  intros Hm Hh w. unfold try_except. specialize (Hm w).
  destruct (m w) as [[a|e] w']; simpl in *; [|rewrite Hh]; auto.
Qed.

Ltac keeps_tac :=
  repeat match goal with
  | |- keeps (bind _ _) => apply keeps_bind; [|intros ?]
  | |- keeps (try_except _ _) => apply keeps_try; [|intros ?]
  | |- keeps (if ?b then _ else _) => destruct b
  | |- keeps (match ?x with _ => _ end) => destruct x
  | |- keeps (ret _) => apply keeps_ret
  | |- keeps (raise _) => apply keeps_raise
  | |- keeps (post _ _) => apply keeps_post
  | |- keeps (check_onvif_port _ _) => apply keeps_probe
  | |- keeps (sleep _) => apply keeps_sleep
  | |- keeps (let _ := _ in _) => cbv zeta
  end.

Lemma keeps_get_camera_info ip0 : keeps (get_camera_info ip0).
Proof. unfold get_camera_info. keeps_tac. Qed.

Lemma keeps_get_current_network_config ip0 : keeps (get_current_network_config ip0).
Proof. unfold get_current_network_config. keeps_tac. Qed.

Lemma keeps_get_network_interfaces ip0 : keeps (get_network_interfaces ip0).
Proof. unfold get_network_interfaces. keeps_tac. Qed.

Lemma keeps_disable_dhcp_first ip0 tok : keeps (disable_dhcp_first ip0 tok).
Proof. unfold disable_dhcp_first. keeps_tac. Qed.

Lemma keeps_try_alternative_with_linklocal_preserved o n g p tok hw :
  keeps (try_alternative_with_linklocal_preserved o n g p tok hw).
Proof. unfold try_alternative_with_linklocal_preserved. keeps_tac. Qed.

Lemma keeps_verify_ip_change new_ip n : keeps (verify_ip_change new_ip n).
Proof.
  unfold verify_ip_change. induction n as [|n IH]; simpl.
  - apply keeps_ret.
  - apply keeps_bind; [|intros [|]; [apply keeps_ret | exact IH]].
    unfold verify_attempt. keeps_tac; apply keeps_get_camera_info.
Qed.

Lemma keeps_prepare_ip_change old_ip : keeps (prepare_ip_change old_ip).
Proof.
  unfold prepare_ip_change.
  keeps_tac; auto using keeps_get_current_network_config,
    keeps_get_network_interfaces, keeps_disable_dhcp_first.
Qed.

Create HintDb frame.
#[export] Hint Resolve keeps_get_camera_info keeps_get_current_network_config
  keeps_get_network_interfaces keeps_disable_dhcp_first keeps_verify_ip_change
  keeps_prepare_ip_change keeps_try_alternative_with_linklocal_preserved
  keeps_probe keeps_post keeps_sleep keeps_ret : frame.

(** ** Registry effect of the engine

    [Upd P m]: a run of [m] changes [self.cameras] only by the update of
    [old_ip] to [new_ip], and does so exactly when it returns a value
    satisfying [P]. *)
Section RegistryEffect.

Variables old_ip new_ip : text.

Definition Upd {A} (P : A -> bool) (m : M A) : Prop :=
  forall w, cameras (snd (m w)) =
            match fst (m w) with
            | Ok a => if P a then update_first old_ip new_ip (cameras w) else cameras w
            | Err _ => cameras w
            end.

Definition is_true_ret (r : pyret) : bool :=
  match r with Some true => true | _ => false end.

Lemma Upd_ret {A} (P : A -> bool) a : P a = false -> Upd P (ret a).
Proof. intros H w. simpl. now rewrite H. Qed.

Lemma Upd_raise {A} (P : A -> bool) e : Upd P (raise e).
Proof. intros w. reflexivity. Qed.

Lemma Upd_update_ret {A} (P : A -> bool) a :
  P a = true -> Upd P (update_cameras old_ip new_ip ;; ret a).
Proof. intros H w. simpl. now rewrite H. Qed.

Lemma Upd_bind_keeps {A B} (P : B -> bool) (m : M A) (k : A -> M B) :
  keeps m -> (forall a, Upd P (k a)) -> Upd P (bind m k).
Proof.
  intros Hm Hk w. unfold bind. specialize (Hm w).
  destruct (m w) as [[a|e] w'] eqn:E; simpl in Hm; [|exact Hm].
  rewrite Hk, Hm. reflexivity.
Qed.

Lemma Upd_try {A} (P : A -> bool) (m : M A) (h : exc -> M A) :
  Upd P m -> (forall e, Upd P (h e)) -> Upd P (try_except m h).
Proof.
  intros Hm Hh w. unfold try_except. specialize (Hm w).
  destruct (m w) as [[a|e] w'] eqn:E; simpl in Hm; [exact Hm|].
  rewrite Hh, Hm. reflexivity.
Qed.

Lemma Upd_bind_done (m : M bool) :
  Upd (fun b => b) m ->
  Upd is_true_ret (done <- m ;; if done then ret (Some true) else ret (Some false)).
Proof.
  intros Hm w. unfold bind. specialize (Hm w).
  destruct (m w) as [[[|]|e] w'] eqn:E; simpl in *; exact Hm.
Qed.

Ltac upd_tac :=
  repeat match goal with
  | |- Upd _ (try_except _ _) => apply Upd_try; [|intros ?]
  | |- Upd _ (bind (update_cameras _ _) _) => apply Upd_update_ret; reflexivity
  | |- Upd _ (bind (alternative_attempt _ _ _ _ _ _ _) _) => apply Upd_bind_done
  | |- Upd _ (bind (read_alt_token) _) => apply Upd_bind_keeps; [apply keeps_raise|intros ?]
  | |- Upd _ (bind _ _) => apply Upd_bind_keeps; [solve [eauto with frame] | intros ?]
  | |- Upd _ (if ?b then _ else _) => destruct b
  | |- Upd _ (match ?x with _ => _ end) => destruct x
  | |- Upd _ (let _ := _ in _) => cbv zeta
  | |- Upd _ (ret _) => apply Upd_ret; reflexivity
  | |- Upd _ (raise _) => apply Upd_raise
  end.

Lemma Upd_alternative_attempt gateway prefix_length all_tokens current_config still_at_old :
  Upd (fun b => b) (alternative_attempt old_ip new_ip gateway prefix_length
                      all_tokens current_config still_at_old).
Proof. unfold alternative_attempt. upd_tac. Qed.

Lemma Upd_check_after_settle gateway prefix_length all_tokens current_config :
  Upd is_true_ret (check_after_settle old_ip new_ip gateway prefix_length
                     all_tokens current_config).
Proof.
  unfold check_after_settle. upd_tac. apply Upd_alternative_attempt.
Qed.

Lemma Upd_send_ip_change gateway prefix_length all_tokens current_config :
  Upd is_true_ret (send_ip_change old_ip new_ip gateway prefix_length
                     all_tokens current_config).
Proof.
  unfold send_ip_change. upd_tac. apply Upd_check_after_settle.
Qed.

Lemma Upd_execute_ip_change gateway prefix_length :
  Upd is_true_ret (execute_ip_change old_ip new_ip gateway prefix_length).
Proof.
  unfold execute_ip_change. upd_tac. apply Upd_send_ip_change.
Qed.

End RegistryEffect.

(** ** The registry update *)

Lemma text_eqb_eq (a b : text) : text_eqb a b = true <-> a = b.
Proof.
  unfold text_eqb. destruct (list_eq_dec ascii_dec a b); split; congruence.
Qed.

Lemma update_first_split (old_ip new_ip : text) pre c post :
  Forall (fun c' => ip c' <> old_ip) pre -> ip c = old_ip ->
  update_first old_ip new_ip (pre ++ c :: post) = pre ++ set_ip c new_ip :: post.
Proof.
  intros Hpre Hc. induction Hpre as [|c' pre Hc' Hpre IH]; simpl.
  - rewrite (proj2 (text_eqb_eq _ _) Hc). reflexivity.
  - destruct (text_eqb (ip c') old_ip) eqn:E.
    + apply text_eqb_eq in E. contradiction.
    + rewrite IH. reflexivity.
Qed.

Lemma update_first_absent (old_ip new_ip : text) cams :
  Forall (fun c' => ip c' <> old_ip) cams -> update_first old_ip new_ip cams = cams.
Proof.
  induction 1 as [|c' cams Hc' Hcams IH]; simpl; [reflexivity|].
  destruct (text_eqb (ip c') old_ip) eqn:E.
  - apply text_eqb_eq in E. contradiction.
  - rewrite IH. reflexivity.
Qed.

Lemma execute_true_registry old_ip new_ip gateway prefix_length w w' :
  execute_ip_change old_ip new_ip gateway prefix_length w = (Ok (Some true), w') ->
  cameras w' = update_first old_ip new_ip (cameras w).
Proof.
  intros H. pose proof (Upd_execute_ip_change old_ip new_ip gateway prefix_length w) as U.
  rewrite H in U. exact U.
Qed.

(** ** Stepping the engine *)

(** The world after [requests.post] consumed the reply [r]. *)
Definition after_post (k : req_kind) (tgt : text) (r : post_result) (rest : list post_result)
    (w : world) : world :=
  log (EPost k tgt r)
    {| posts := rest; probes := probes w; cameras := cameras w; events := events w |}.

Lemma post_step k tgt w r rest :
  posts w = r :: rest ->
  post k tgt w = (match r with Resp s b => Ok (s, b) | Fail e => Err e end,
                  after_post k tgt r rest w).
Proof. intros H. unfold post. rewrite H. destruct r; reflexivity. Qed.

Lemma execute_step old_ip new_ip gateway prefix_length w all_tokens current_config w1 :
  prepare_ip_change old_ip w = (Ok (all_tokens, current_config), w1) ->
  execute_ip_change old_ip new_ip gateway prefix_length w =
  send_ip_change old_ip new_ip gateway prefix_length all_tokens current_config w1.
Proof. intros H. unfold execute_ip_change, bind. rewrite H. reflexivity. Qed.

Lemma accept_200_no_fault (b : text) :
  fault_marker b = false ->
  accept_200 b = onvif_success b || (has_success b && negb (has_failure b)).
Proof.
  intros H. unfold accept_200. rewrite H.
  destruct (has_success b), (has_failure b), (onvif_success b); reflexivity.
Qed.

(** On a primary reply carrying a fault marker, whatever its status, the
    engine returns [False] right after the request: no settle delay, no
    probe, no further request. *)
Lemma execute_ip_change_fault_primary old_ip new_ip gateway prefix_length w
    all_tokens current_config w1 status b rest :
  prepare_ip_change old_ip w = (Ok (all_tokens, current_config), w1) ->
  posts w1 = Resp status b :: rest ->
  fault_marker b = true ->
  execute_ip_change old_ip new_ip gateway prefix_length w =
  (Ok (Some false), after_post KSetPrimary old_ip (Resp status b) rest w1).
Proof.
  intros Hp Hpost Hf. rewrite (execute_step _ _ _ _ _ _ _ _ Hp).
  unfold send_ip_change, try_except, bind at 1.
  rewrite (post_step _ _ _ _ _ Hpost). cbn [fst snd].
  unfold accept_200. rewrite Hf.
  destruct (status =? 200)%Z; [reflexivity|].
  destruct (status =? 401)%Z; [reflexivity|].
  destruct (status =? 404)%Z; reflexivity.
Qed.

(** ** Reconfiguration Engine: classification of the primary reply *)

(** C5: a 401 reply to the primary request ends the run at once with
    [False]: the reply is the last event, so there is no settle delay, no
    probe, no verification and no alternate request. *)
Theorem execute_ip_change_401_stops old_ip new_ip gateway prefix_length w
    all_tokens current_config w1 b rest :
  prepare_ip_change old_ip w = (Ok (all_tokens, current_config), w1) ->
  posts w1 = Resp 401 b :: rest ->
  execute_ip_change old_ip new_ip gateway prefix_length w =
  (Ok (Some false), after_post KSetPrimary old_ip (Resp 401 b) rest w1).
Proof.
  intros Hp Hpost. rewrite (execute_step _ _ _ _ _ _ _ _ Hp).
  unfold send_ip_change, try_except, bind at 1.
  rewrite (post_step _ _ _ _ _ Hpost). reflexivity.
Qed.

Definition ip_a : text := t "10.0.0.5".
Definition ip_b : text := t "10.0.0.9".
Definition gw_a : text := t "10.0.0.1".

Definition w401 : world := script [Resp 200 []; Resp 200 []; Resp 401 []] [] [].

Lemma execute_ip_change_401_stops_witness :
  prepare_ip_change ip_a w401 =
    (Ok ([t "eth0"], parse_network_config []), snd (prepare_ip_change ip_a w401)) /\
  posts (snd (prepare_ip_change ip_a w401)) = [Resp 401 []] /\
  execute_ip_change ip_a ip_b gw_a 24 w401 =
  (Ok (Some false),
   after_post KSetPrimary ip_a (Resp 401 []) [] (snd (prepare_ip_change ip_a w401))).
Proof.
  assert (H1 : prepare_ip_change ip_a w401 =
    (Ok ([t "eth0"], parse_network_config []), snd (prepare_ip_change ip_a w401)))
    by (vm_compute; reflexivity).
  assert (H2 : posts (snd (prepare_ip_change ip_a w401)) = [Resp 401 []])
    by (vm_compute; reflexivity).
  split; [exact H1 | split; [exact H2 |]].
  exact (execute_ip_change_401_stops ip_a ip_b gw_a 24 w401 _ _ _ [] [] H1 H2).
Defined.

(** C3 (as amended): on a fault-free 200 reply the engine goes on to the
    settle delay and verification exactly when the body has both exact
    markers, or matches a case-insensitive success pattern and no failure
    pattern; otherwise it returns [False] right after the reply. *)
Theorem execute_ip_change_200_decision old_ip new_ip gateway prefix_length w
    all_tokens current_config w1 b rest :
  prepare_ip_change old_ip w = (Ok (all_tokens, current_config), w1) ->
  posts w1 = Resp 200 b :: rest ->
  fault_marker b = false ->
  execute_ip_change old_ip new_ip gateway prefix_length w =
  if onvif_success b || (has_success b && negb (has_failure b)) then
    try_except
      (sleep 5 ;; check_after_settle old_ip new_ip gateway prefix_length
                    all_tokens current_config)
      (fun _ => ret (Some false))
      (after_post KSetPrimary old_ip (Resp 200 b) rest w1)
  else (Ok (Some false), after_post KSetPrimary old_ip (Resp 200 b) rest w1).
Proof.
  intros Hp Hpost Hf. rewrite (execute_step _ _ _ _ _ _ _ _ Hp).
  unfold send_ip_change, try_except, bind at 1.
  rewrite (post_step _ _ _ _ _ Hpost). cbn [fst snd Z.eqb Pos.eqb].
  rewrite (accept_200_no_fault _ Hf).
  destruct (onvif_success b || (has_success b && negb (has_failure b))); reflexivity.
Qed.

Definition ok_body : text :=
  t "<tds:SetNetworkInterfacesResponse><tds:RebootNeeded>false</tds:RebootNeeded></tds:SetNetworkInterfacesResponse>".

Definition w200 : world := script [Resp 200 []; Resp 200 []; Resp 200 ok_body] [] [].

Lemma execute_ip_change_200_decision_witness :
  prepare_ip_change ip_a w200 =
    (Ok ([t "eth0"], parse_network_config []), snd (prepare_ip_change ip_a w200)) /\
  posts (snd (prepare_ip_change ip_a w200)) = [Resp 200 ok_body] /\
  fault_marker ok_body = false /\
  execute_ip_change ip_a ip_b gw_a 24 w200 =
  if onvif_success ok_body || (has_success ok_body && negb (has_failure ok_body)) then
    try_except
      (sleep 5 ;; check_after_settle ip_a ip_b gw_a 24 [t "eth0"] (parse_network_config []))
      (fun _ => ret (Some false))
      (after_post KSetPrimary ip_a (Resp 200 ok_body) [] (snd (prepare_ip_change ip_a w200)))
  else (Ok (Some false),
        after_post KSetPrimary ip_a (Resp 200 ok_body) [] (snd (prepare_ip_change ip_a w200))).
Proof.
  assert (H1 : prepare_ip_change ip_a w200 =
    (Ok ([t "eth0"], parse_network_config []), snd (prepare_ip_change ip_a w200)))
    by (vm_compute; reflexivity).
  assert (H2 : posts (snd (prepare_ip_change ip_a w200)) = [Resp 200 ok_body])
    by (vm_compute; reflexivity).
  assert (H3 : fault_marker ok_body = false) by (vm_compute; reflexivity).
  split; [exact H1 | split; [exact H2 | split; [exact H3 |]]].
  exact (execute_ip_change_200_decision ip_a ip_b gw_a 24 w200 _ _ _ _ [] H1 H2 H3).
Defined.

(** The only-if half of C3 fails: a fault-free 200 body with [RebootNeeded]
    but no [SetNetworkInterfacesResponse] marker still leads to the settle
    delay and to the probe of the old address. *)
Definition reboot_only_body : text := t "<RebootNeeded>true</RebootNeeded>".

Lemma reboot_only_body_proceeds :
  contains (t "SetNetworkInterfacesResponse") reboot_only_body = false /\
  fault_marker reboot_only_body = false /\
  In (ESleep 5)
     (events (snd (execute_ip_change ip_a ip_b gw_a 24
                     (script [Resp 200 []; Resp 200 []; Resp 200 reboot_only_body] [] [])))) /\
  In (EProbe ip_a 80 false)
     (events (snd (execute_ip_change ip_a ip_b gw_a 24
                     (script [Resp 200 []; Resp 200 []; Resp 200 reboot_only_body] [] [])))).
Proof.
  vm_compute.
  repeat split; repeat (first [left; reflexivity | right]).
Qed.

(** ** Reconfiguration Engine: confirmation and registry *)

Lemma check_after_settle_confirmed old_ip new_ip gateway prefix_length all_tokens
    current_config w2 new_config w3 still_at_old w4 w5 :
  get_current_network_config old_ip w2 = (Ok new_config, w3) ->
  mem new_ip (addresses new_config) = true ->
  check_onvif_port old_ip 80 w3 = (Ok still_at_old, w4) ->
  verify_ip_change new_ip 10 w4 = (Ok true, w5) ->
  fst (check_after_settle old_ip new_ip gateway prefix_length all_tokens
         current_config w2) = Ok (Some true).
Proof.
  intros Hc Hmem Hs Hv. unfold check_after_settle. cbv [bind].
  rewrite Hc. cbv zeta. rewrite Hs.
  destruct (addresses new_config) as [|a l]; [discriminate Hmem|].
  rewrite Hmem. change (true || negb still_at_old) with true. cbv beta iota.
  rewrite Hv. reflexivity.
Qed.

(** C2: when the primary request is accepted, the facts re-read at the old
    address after the settle delay list the new address, and the new address
    answers within the 10 polls of [verify_ip_change], the engine returns
    [True] and the registry entry that held the old address (the first one)
    now holds the new address. *)
Theorem execute_ip_change_confirmed old_ip new_ip gateway prefix_length w
    all_tokens current_config w1 b rest new_config w3 still_at_old w4 w5 :
  prepare_ip_change old_ip w = (Ok (all_tokens, current_config), w1) ->
  posts w1 = Resp 200 b :: rest ->
  accept_200 b = true ->
  get_current_network_config old_ip
    (log (ESleep 5) (after_post KSetPrimary old_ip (Resp 200 b) rest w1))
    = (Ok new_config, w3) ->
  mem new_ip (addresses new_config) = true ->
  check_onvif_port old_ip 80 w3 = (Ok still_at_old, w4) ->
  verify_ip_change new_ip 10 w4 = (Ok true, w5) ->
  fst (execute_ip_change old_ip new_ip gateway prefix_length w) = Ok (Some true) /\
  cameras (snd (execute_ip_change old_ip new_ip gateway prefix_length w))
    = update_first old_ip new_ip (cameras w) /\
  (forall pre c post,
     cameras w = pre ++ c :: post -> ip c = old_ip ->
     Forall (fun c' => ip c' <> old_ip) pre ->
     cameras (snd (execute_ip_change old_ip new_ip gateway prefix_length w))
       = pre ++ set_ip c new_ip :: post).
Proof.
  intros Hp Hpost Hacc Hc Hmem Hs Hv.
  assert (Hres : fst (execute_ip_change old_ip new_ip gateway prefix_length w)
                 = Ok (Some true)).
  { rewrite (execute_step _ _ _ _ _ _ _ _ Hp).
    unfold send_ip_change, try_except, bind at 1.
    rewrite (post_step _ _ _ _ _ Hpost). cbn [fst snd]. rewrite Z.eqb_refl, Hacc.
    pose proof (check_after_settle_confirmed old_ip new_ip gateway prefix_length
                  all_tokens current_config _ _ _ _ _ _ Hc Hmem Hs Hv) as Hcs.
    unfold bind, sleep.
    destruct (check_after_settle old_ip new_ip gateway prefix_length all_tokens
                current_config
                (log (ESleep 5) (after_post KSetPrimary old_ip (Resp 200 b) rest w1)))
      as [r w6]; simpl in Hcs; subst r; reflexivity. }
  assert (Hcam : cameras (snd (execute_ip_change old_ip new_ip gateway prefix_length w))
                 = update_first old_ip new_ip (cameras w)).
  { apply (execute_true_registry _ _ gateway prefix_length).
    destruct (execute_ip_change old_ip new_ip gateway prefix_length w) as [r w'].
    simpl in Hres. subst r. reflexivity. }
  split; [exact Hres | split; [exact Hcam |]].
  intros pre c post Hw Hc' Hpre. rewrite Hcam, Hw.
  apply update_first_split; assumption.
Qed.

(** The scenario of the specification: [10.0.0.5] to [10.0.0.9], the
    primary reply carries both markers, the facts re-read at [10.0.0.5]
    list [10.0.0.9], which answers on the third poll. *)
Definition cfg_old : text := t "<tt:Address>10.0.0.5</tt:Address>".
Definition cfg_new : text := t "<tt:Address>10.0.0.9</tt:Address>".
Definition info_body : text := t "<tds:Manufacturer>ACME</tds:Manufacturer><tds:Model>X1</tds:Model>".

Definition scenario_w0 : world :=
  script [Resp 200 cfg_old; Resp 200 []; Resp 200 ok_body; Resp 200 cfg_new;
          Resp 200 info_body]
         [true; false; false; true]
         [Camera (t "10.0.0.4") [] [] []; Camera ip_a [] [] []].

Definition scenario_w1 : world := snd (prepare_ip_change ip_a scenario_w0).
Definition scenario_w2 : world :=
  log (ESleep 5) (after_post KSetPrimary ip_a (Resp 200 ok_body)
                    [Resp 200 cfg_new; Resp 200 info_body] scenario_w1).
Definition scenario_w3 : world := snd (get_current_network_config ip_a scenario_w2).
Definition scenario_w4 : world := snd (check_onvif_port ip_a 80 scenario_w3).
Definition scenario_w5 : world := snd (verify_ip_change ip_b 10 scenario_w4).

Lemma execute_ip_change_confirmed_witness :
  prepare_ip_change ip_a scenario_w0 =
    (Ok ([t "eth0"], parse_network_config cfg_old), scenario_w1) /\
  posts scenario_w1 = [Resp 200 ok_body; Resp 200 cfg_new; Resp 200 info_body] /\
  accept_200 ok_body = true /\
  get_current_network_config ip_a scenario_w2 =
    (Ok (parse_network_config cfg_new), scenario_w3) /\
  mem ip_b (addresses (parse_network_config cfg_new)) = true /\
  check_onvif_port ip_a 80 scenario_w3 = (Ok true, scenario_w4) /\
  verify_ip_change ip_b 10 scenario_w4 = (Ok true, scenario_w5) /\
  fst (execute_ip_change ip_a ip_b gw_a 24 scenario_w0) = Ok (Some true).
Proof.
  assert (H1 : prepare_ip_change ip_a scenario_w0 =
    (Ok ([t "eth0"], parse_network_config cfg_old), scenario_w1))
    by (vm_compute; reflexivity).
  assert (H2 : posts scenario_w1 = [Resp 200 ok_body; Resp 200 cfg_new; Resp 200 info_body])
    by (vm_compute; reflexivity).
  assert (H3 : accept_200 ok_body = true) by (vm_compute; reflexivity).
  assert (H4 : get_current_network_config ip_a scenario_w2 =
    (Ok (parse_network_config cfg_new), scenario_w3)) by (vm_compute; reflexivity).
  assert (H5 : mem ip_b (addresses (parse_network_config cfg_new)) = true)
    by (vm_compute; reflexivity).
  assert (H6 : check_onvif_port ip_a 80 scenario_w3 = (Ok true, scenario_w4))
    by (vm_compute; reflexivity).
  assert (H7 : verify_ip_change ip_b 10 scenario_w4 = (Ok true, scenario_w5))
    by (vm_compute; reflexivity).
  do 7 (split; [assumption |]).
  exact (proj1 (execute_ip_change_confirmed ip_a ip_b gw_a 24 scenario_w0 _ _ _ _ _ _ _ _ _ _
                  H1 H2 H3 H4 H5 H6 H7)).
Defined.

(** C10: whenever the engine returns [True], the registry differs from the
    one before the call only in the first entry whose address was the old
    address, whose address field (and nothing else) is now the new address;
    with no such entry the registry is unchanged. *)
Theorem execute_ip_change_registry_frame old_ip new_ip gateway prefix_length w w' :
  execute_ip_change old_ip new_ip gateway prefix_length w = (Ok (Some true), w') ->
  cameras w' = update_first old_ip new_ip (cameras w) /\
  (forall pre c post,
     cameras w = pre ++ c :: post -> ip c = old_ip ->
     Forall (fun c' => ip c' <> old_ip) pre ->
     cameras w' = pre ++ set_ip c new_ip :: post /\
     name (set_ip c new_ip) = name c /\ model (set_ip c new_ip) = model c /\
     manufacturer (set_ip c new_ip) = manufacturer c /\
     reachable (set_ip c new_ip) = reachable c) /\
  (Forall (fun c => ip c <> old_ip) (cameras w) -> cameras w' = cameras w).
Proof.
  intros H. pose proof (execute_true_registry _ _ _ _ _ _ H) as Hcam.
  split; [exact Hcam | split].
  - intros pre c post Hw Hc Hpre. rewrite Hcam, Hw.
    split; [apply update_first_split; assumption | repeat split].
  - intros Hnone. rewrite Hcam. apply update_first_absent. exact Hnone.
Qed.

Lemma execute_ip_change_registry_frame_witness :
  execute_ip_change ip_a ip_b gw_a 24 scenario_w0 =
    (Ok (Some true), snd (execute_ip_change ip_a ip_b gw_a 24 scenario_w0)) /\
  cameras (snd (execute_ip_change ip_a ip_b gw_a 24 scenario_w0)) =
    update_first ip_a ip_b (cameras scenario_w0).
Proof.
  assert (H : execute_ip_change ip_a ip_b gw_a 24 scenario_w0 =
    (Ok (Some true), snd (execute_ip_change ip_a ip_b gw_a 24 scenario_w0)))
    by (vm_compute; reflexivity).
  split; [exact H | exact (proj1 (execute_ip_change_registry_frame _ _ _ _ _ _ H))].
Defined.

(** ** Reconfiguration Engine: the fallback branch and the return values *)

(** The alternate branch always stops at the unassigned [alt_token]: it
    raises [NameError] before any request is sent. *)
Lemma alternative_attempt_name_error old_ip new_ip gateway prefix_length
    all_tokens current_config w :
  (1 < length all_tokens)%nat ->
  alternative_attempt old_ip new_ip gateway prefix_length all_tokens current_config
    true w = (Err NameError, w).
Proof.
  intros H. unfold alternative_attempt.
  apply Nat.ltb_lt in H. rewrite H. reflexivity.
Qed.

Definition is_linklocal_post (e : event) : bool :=
  match e with EPost KSetLinkLocal _ _ => true | _ => false end.

(** Facts listing two interface tokens ([eth0] as an attribute, [wlan0] as
    a name) and the old address. *)
Definition cfg_two_tokens : text :=
  t "<tds:NetworkInterfaces token=" ++ [dq] ++ t "eth0" ++ [dq] ++
  t "><tt:Name>wlan0</tt:Name><tt:Address>10.0.0.5</tt:Address></tds:NetworkInterfaces>".

Definition fallback_w0 : world :=
  script [Resp 200 cfg_two_tokens; Resp 200 []; Resp 200 ok_body; Resp 200 cfg_two_tokens]
         [true] [].

(** C4 at the failing input: two token candidates, the primary request
    accepted, the device still at the old address with its configuration
    unchanged; the engine returns [False] and no alternate-format request is
    ever sent. *)
Lemma execute_ip_change_no_alternate_request :
  length (combine_tokens [t "eth0"] (parse_network_config cfg_two_tokens)) = 2%nat /\
  In (EProbe ip_a 80 true) (events (snd (execute_ip_change ip_a ip_b gw_a 24 fallback_w0))) /\
  fst (execute_ip_change ip_a ip_b gw_a 24 fallback_w0) = Ok (Some false) /\
  existsb is_linklocal_post
    (events (snd (execute_ip_change ip_a ip_b gw_a 24 fallback_w0))) = false.
Proof.
  vm_compute.
  split; [reflexivity | split; [repeat (first [left; reflexivity | right]) |]].
  split; reflexivity.
Qed.

Definition unverified_w0 : world :=
  script [Resp 200 cfg_old; Resp 200 []; Resp 200 ok_body; Resp 200 cfg_new] [true] [].

(** C6 at the failing input: the facts at the old address list the new
    address but the new address never answers; [execute_ip_change] falls off
    its end and returns [None], not a boolean. *)
Lemma execute_ip_change_returns_none :
  fst (execute_ip_change ip_a ip_b gw_a 24 unverified_w0) = Ok None.
Proof. vm_compute. reflexivity. Qed.

(** No exception leaves [execute_ip_change]. *)
Definition no_raise {A} (m : M A) : Prop := forall w, exists a, fst (m w) = Ok a.

Lemma no_raise_ret {A} (a : A) : no_raise (ret a).
Proof. intros w. exists a. reflexivity. Qed.

Lemma no_raise_bind {A B} (m : M A) (k : A -> M B) :
  no_raise m -> (forall a, no_raise (k a)) -> no_raise (bind m k).
Proof.
  intros Hm Hk w. unfold bind. destruct (Hm w) as [a Ha].
  destruct (m w) as [r w']. simpl in Ha. subst r. apply Hk.
Qed.

Lemma no_raise_try {A} (m : M A) (h : exc -> M A) :
  (forall e, no_raise (h e)) -> no_raise (try_except m h).
Proof.
  intros Hh w. unfold try_except.
  destruct (m w) as [[a|e] w']; [exists a; reflexivity | apply Hh].
Qed.

Ltac no_raise_tac :=
  repeat match goal with
  | |- no_raise (try_except _ _) => apply no_raise_try; intros ?
  | |- no_raise (bind _ _) => apply no_raise_bind; [|intros ?]
  | |- no_raise (if ?b then _ else _) => destruct b
  | |- no_raise (match ?x with _ => _ end) => destruct x
  | |- no_raise (let _ := _ in _) => cbv zeta
  | |- no_raise (ret _) => apply no_raise_ret
  | |- no_raise (sleep _) => intros ?; eexists; reflexivity
  end.

Lemma execute_ip_change_no_raise old_ip new_ip gateway prefix_length :
  no_raise (execute_ip_change old_ip new_ip gateway prefix_length).
Proof.
  unfold execute_ip_change, prepare_ip_change, send_ip_change,
    get_current_network_config, get_network_interfaces, disable_dhcp_first.
  no_raise_tac.
Qed.

(** A transport error on the primary request gives [False]. *)
Lemma execute_ip_change_transport_error old_ip new_ip gateway prefix_length w
    all_tokens current_config w1 e rest :
  prepare_ip_change old_ip w = (Ok (all_tokens, current_config), w1) ->
  posts w1 = Fail e :: rest ->
  execute_ip_change old_ip new_ip gateway prefix_length w =
  (Ok (Some false), after_post KSetPrimary old_ip (Fail e) rest w1).
Proof.
  intros Hp Hpost. rewrite (execute_step _ _ _ _ _ _ _ _ Hp).
  unfold send_ip_change, try_except, bind at 1.
  rewrite (post_step _ _ _ _ _ Hpost). reflexivity.
Qed.

(** A reply carrying both success markers and a SOAP fault. *)
Definition fault_body : text :=
  t "<s:Fault><s:Code>ter:InvalidArgVal</s:Code></s:Fault>" ++ ok_body.

Definition dhcp_cfg : text := t "<tt:DHCP>true</tt:DHCP>".

(** C1 at the failing input: the DHCP-only requests do not look for fault
    markers.  [disable_dhcp_first] reports success on [fault_body] and the
    engine then waits 2 seconds; [set_dhcp_mode] (disable) reports success,
    after its 5-second settle delay and a verification query. *)
Lemma dhcp_requests_accept_fault_reply :
  fault_marker fault_body = true /\
  fst (disable_dhcp_first ip_a (t "eth0") (script [Resp 200 fault_body] [] [])) = Ok true /\
  In (ESleep 2)
     (events (snd (execute_ip_change ip_a ip_b gw_a 24
                     (script [Resp 200 dhcp_cfg; Resp 200 []; Resp 200 fault_body;
                              Resp 401 []] [] [])))) /\
  set_dhcp_mode ip_a false true
    (script [Resp 200 []; Resp 200 []; Resp 200 fault_body; Resp 200 []] [] []) =
  (Ok true,
   {| posts := []; probes := []; cameras := [];
      events := [EPost KGetNetworkInterfaces ip_a (Resp 200 []); ESleep 5;
                 EPost KSetDhcpMode ip_a (Resp 200 fault_body);
                 EPost KGetNetworkInterfaces ip_a (Resp 200 []);
                 EPost KGetNetworkInterfaces ip_a (Resp 200 [])] |}).
Proof.
  split; [vm_compute; reflexivity |].
  split; [vm_compute; reflexivity |].
  split; [vm_compute; repeat (first [left; reflexivity | right]) |].
  vm_compute. reflexivity.
Qed.

(** ** Discovery: addresses of the scan result *)

Definition dot_free (s : text) : Prop := ~ In "."%char s.

Lemma byte_strings_ok :
  forallb (fun n => negb (existsb (Ascii.eqb "."%char) (py_str_nat n)) &&
                    Nat.eqb (dec_val (py_str_nat n)) n) (seq 0 256) = true.
Proof. vm_compute. reflexivity. Qed.

Lemma byte_string_spec (n : nat) :
  (n < 256)%nat -> dot_free (py_str_nat n) /\ dec_val (py_str_nat n) = n.
Proof.
  intros Hn. pose proof byte_strings_ok as H.
  rewrite forallb_forall in H. specialize (H n (proj2 (in_seq 256 0 n) (conj (Nat.le_0_l n) Hn))).
  apply andb_prop in H as [H1 H2]. split.
  - intros Hin. apply negb_true_iff in H1.
    assert (existsb (Ascii.eqb "."%char) (py_str_nat n) = true) as E.
    { apply existsb_exists. exists "."%char. split; [exact Hin | apply Ascii.eqb_refl]. }
    congruence.
  - apply Nat.eqb_eq. exact H2.
Qed.

Lemma split_dot (a a' b b' : text) :
  dot_free a -> dot_free a' -> a ++ "."%char :: b = a' ++ "."%char :: b' -> a = a' /\ b = b'.
Proof.
  revert a'. induction a as [|x a IH]; intros [|y a'] Ha Ha' E; simpl in E.
  - inversion E. auto.
  - inversion E; subst. exfalso. apply Ha'. left. reflexivity.
  - inversion E; subst. exfalso. apply Ha. left. reflexivity.
  - inversion E; subst.
    destruct (IH a') as [-> ->]; auto.
    + intro Hin. apply Ha. right. exact Hin.
    + intro Hin. apply Ha'. right. exact Hin.
Qed.

Lemma byte_of_range k x : (0 <= byte_of k x < 256)%Z.
Proof. unfold byte_of. apply Z.mod_pos_bound. lia. Qed.

Lemma byte_to_nat_lt k x : (Z.to_nat (byte_of k x) < 256)%nat.
Proof. pose proof (byte_of_range k x). lia. Qed.

Lemma py_str_byte_inj k l x y :
  py_str_nat (Z.to_nat (byte_of k x)) = py_str_nat (Z.to_nat (byte_of l y)) ->
  byte_of k x = byte_of l y.
Proof.
  intros E.
  destruct (byte_string_spec _ (byte_to_nat_lt k x)) as [_ Hx].
  destruct (byte_string_spec _ (byte_to_nat_lt l y)) as [_ Hy].
  pose proof (byte_of_range k x). pose proof (byte_of_range l y).
  assert (Z.to_nat (byte_of k x) = Z.to_nat (byte_of l y)) as En by congruence.
  lia.
Qed.

Lemma ipv4_bytes (x : Z) :
  (0 <= x < 2 ^ 32)%Z ->
  x = (byte_of 0 x + 256 * byte_of 1 x + 65536 * byte_of 2 x + 16777216 * byte_of 3 x)%Z.
Proof.
  intros H.
  assert (B0 : byte_of 0 x = (x mod 256)%Z) by (unfold byte_of; cbn; rewrite Z.div_1_r; reflexivity).
  assert (B1 : byte_of 1 x = (x / 256 mod 256)%Z) by reflexivity.
  assert (B2 : byte_of 2 x = (x / 256 / 256 mod 256)%Z)
    by (unfold byte_of; rewrite Z.div_div by lia; reflexivity).
  assert (B3 : byte_of 3 x = (x / 256 / 256 / 256 mod 256)%Z)
    by (unfold byte_of; rewrite !Z.div_div by lia; reflexivity).
  rewrite B0, B1, B2, B3.
  assert (Hq : (0 <= x / 256 / 256 / 256 < 256)%Z).
  { rewrite !Z.div_div by lia. split; [apply Z.div_pos; lia|].
    apply Z.div_lt_upper_bound; [lia|]. cbn in *. lia. }
  rewrite (Z.mod_small (x / 256 / 256 / 256)) by exact Hq.
  pose proof (Z.div_mod x 256 ltac:(lia)).
  pose proof (Z.div_mod (x / 256) 256 ltac:(lia)).
  pose proof (Z.div_mod (x / 256 / 256) 256 ltac:(lia)).
  lia.
Qed.

Lemma ipv4_str_inj (x y : Z) :
  (0 <= x < 2 ^ 32)%Z -> (0 <= y < 2 ^ 32)%Z -> ipv4_str x = ipv4_str y -> x = y.
Proof.
  intros Hx Hy E. unfold ipv4_str in E.
  pose proof (fun k x => proj1 (byte_string_spec _ (byte_to_nat_lt k x))) as Hd.
  apply split_dot in E as [E3 E]; auto.
  apply split_dot in E as [E2 E]; auto.
  apply split_dot in E as [E1 E0]; auto.
  apply py_str_byte_inj in E3, E2, E1, E0.
  rewrite (ipv4_bytes x Hx), (ipv4_bytes y Hy). congruence.
Qed.

Lemma log2_lt_32 (a : Z) : (0 <= a)%Z -> (a < 2 ^ 32 <-> Z.log2 a < 32)%Z.
Proof.
  intros Ha. destruct (Z.eq_dec a 0) as [->|Hne].
  - cbn. split; intros; lia.
  - apply Z.log2_lt_pow2. lia.
Qed.

Lemma land_32 (a b : Z) :
  (0 <= a < 2 ^ 32)%Z -> (0 <= b)%Z -> (0 <= Z.land a b < 2 ^ 32)%Z.
Proof.
  intros Ha Hb. assert (0 <= Z.land a b)%Z by (apply Z.land_nonneg; lia).
  split; [assumption|]. apply log2_lt_32; [assumption|].
  pose proof (Z.log2_land a b ltac:(lia) Hb).
  pose proof (proj1 (log2_lt_32 a ltac:(lia)) (proj2 Ha)). lia.
Qed.

Lemma lor_32 (a b : Z) :
  (0 <= a < 2 ^ 32)%Z -> (0 <= b < 2 ^ 32)%Z -> (0 <= Z.lor a b < 2 ^ 32)%Z.
Proof.
  intros Ha Hb. assert (0 <= Z.lor a b)%Z by (apply Z.lor_nonneg; lia).
  split; [assumption|]. apply log2_lt_32; [assumption|].
  rewrite Z.log2_lor by lia.
  pose proof (proj1 (log2_lt_32 a ltac:(lia)) (proj2 Ha)).
  pose proof (proj1 (log2_lt_32 b ltac:(lia)) (proj2 Hb)). lia.
Qed.

Lemma network_address_range (n : ipv4_network) :
  valid_network n -> (0 <= network_address n < 2 ^ 32)%Z.
Proof.
  intros [Hip Hp]. unfold network_address, netmask. apply land_32; [exact Hip|].
  apply Z.shiftl_nonneg. rewrite Z.ones_equiv.
  pose proof (Z.pow_pos_nonneg 2 (prefixlen n) ltac:(lia) ltac:(lia)). lia.
Qed.

Lemma broadcast_address_range (n : ipv4_network) :
  valid_network n -> (0 <= broadcast_address n < 2 ^ 32)%Z.
Proof.
  intros Hv. unfold broadcast_address. apply lor_32; [apply network_address_range, Hv|].
  destruct Hv as [_ Hp]. unfold hostmask. rewrite Z.ones_equiv.
  pose proof (Z.pow_pos_nonneg 2 (32 - prefixlen n) ltac:(lia) ltac:(lia)).
  pose proof (Z.pow_le_mono_r 2 (32 - prefixlen n) 32 ltac:(lia) ltac:(lia)). lia.
Qed.

Lemma in_zrange (a b x : Z) : In x (zrange a b) -> (a <= x < b)%Z.
Proof.
  unfold zrange. intros Hin. apply in_map_iff in Hin as [k [<- Hk]].
  apply in_seq in Hk. lia.
Qed.

Lemma hosts_range (n : ipv4_network) (x : Z) :
  valid_network n -> In x (hosts n) -> (0 <= x < 2 ^ 32)%Z.
Proof.
  intros Hv Hin. pose proof (network_address_range n Hv) as Hn.
  pose proof (broadcast_address_range n Hv) as Hb.
  unfold hosts in Hin.
  destruct (prefixlen n =? 31)%Z; [apply in_zrange in Hin; lia|].
  destruct (prefixlen n =? 32)%Z.
  - destruct Hin as [<-|[]]. apply (proj1 Hv).
  - apply in_zrange in Hin. lia.
Qed.

Lemma camera_info_of_ip (ip0 : text) (r : post_result) (c : camera) :
  camera_info_of ip0 r = Some c -> ip c = ip0.
Proof.
  unfold camera_info_of. destruct r as [status content|e]; [|discriminate].
  destruct (status =? 200)%Z; [|discriminate]. intros [= <-]. reflexivity.
Qed.

Lemma scan_result_source port_open query creds ports n c :
  In c (scan_network_for_cameras port_open query creds ports n) ->
  exists x, In x (hosts n) /\ check_ip_ports port_open ports n x = Some (ip c).
Proof.
  unfold scan_network_for_cameras. intros Hin.
  apply in_map_iff in Hin as [ip0 [Hc Hip0]].
  apply in_flat_map in Hip0 as [x [Hx Hs]].
  exists x. split; [exact Hx|].
  destruct (check_ip_ports port_open ports n x) as [s|] eqn:E; [|destruct Hs].
  destruct Hs as [<-|[]].
  assert (ip c = s) as ->; [|reflexivity].
  subst c. cbv zeta.
  destruct (camera_info_of s (query s [] [])) as [c0|] eqn:E1.
  - apply (camera_info_of_ip _ _ _ E1).
  - destruct (fst creds) as [|u us].
    + reflexivity.
    + destruct (camera_info_of s (query s (u :: us) (snd creds))) as [c1|] eqn:E2.
      * apply (camera_info_of_ip _ _ _ E2).
      * reflexivity.
Qed.

Lemma check_ip_ports_some port_open ports n x s :
  check_ip_ports port_open ports n x = Some s ->
  s = ipv4_str x /\ x <> network_address n /\ x <> broadcast_address n.
Proof.
  unfold check_ip_ports.
  destruct (x =? network_address n)%Z eqn:E1; [discriminate|].
  destruct (x =? broadcast_address n)%Z eqn:E2; [discriminate|].
  destruct (existsb _ ports); [|discriminate]. intros [= <-].
  apply Z.eqb_neq in E1, E2. auto.
Qed.

(** C7: every camera returned by [scan_network_for_cameras] carries the
    dotted-quad address of a host of the network other than the network
    and the broadcast address, so its address is neither of those two. *)
Theorem scan_excludes_network_and_broadcast port_open query creds ports n c :
  valid_network n ->
  In c (scan_network_for_cameras port_open query creds ports n) ->
  (exists x, In x (hosts n) /\ ip c = ipv4_str x /\
             x <> network_address n /\ x <> broadcast_address n) /\
  ip c <> ipv4_str (network_address n) /\ ip c <> ipv4_str (broadcast_address n).
Proof.
  intros Hv Hin.
  destruct (scan_result_source _ _ _ _ _ _ Hin) as [x [Hx Hc]].
  destruct (check_ip_ports_some _ _ _ _ _ Hc) as [Hs [Hn Hb]].
  pose proof (hosts_range n x Hv Hx) as Hr.
  split; [exists x; auto|]. rewrite Hs. split; intro E.
  - apply ipv4_str_inj in E; [contradiction | exact Hr | apply network_address_range, Hv].
  - apply ipv4_str_inj in E; [contradiction | exact Hr | apply broadcast_address_range, Hv].
Qed.

Definition net_28 : ipv4_network := {| net_ip := 3232235776; prefixlen := 28 |}.

Definition probe_5 (s : text) (port : Z) : bool :=
  text_eqb s (t "192.168.1.5") && (port =? 80)%Z.

Definition info_reply (ip0 u p : text) : post_result := Resp 200 info_body.

Lemma scan_excludes_network_and_broadcast_witness :
  valid_network net_28 /\
  In (parse_camera_info (t "192.168.1.5") info_body)
     (scan_network_for_cameras probe_5 info_reply ([], []) [80; 8080]%Z net_28) /\
  ((exists x, In x (hosts net_28) /\
       ip (parse_camera_info (t "192.168.1.5") info_body) = ipv4_str x /\
       x <> network_address net_28 /\ x <> broadcast_address net_28) /\
   ip (parse_camera_info (t "192.168.1.5") info_body) <> ipv4_str (network_address net_28) /\
   ip (parse_camera_info (t "192.168.1.5") info_body) <> ipv4_str (broadcast_address net_28)).
Proof.
  assert (Hv : valid_network net_28) by (unfold valid_network, net_28; cbn; lia).
  assert (Hin : In (parse_camera_info (t "192.168.1.5") info_body)
     (scan_network_for_cameras probe_5 info_reply ([], []) [80; 8080]%Z net_28))
    by (vm_compute; left; reflexivity).
  split; [exact Hv|]. split; [exact Hin|].
  exact (scan_excludes_network_and_broadcast probe_5 info_reply ([], []) [80; 8080]%Z
           net_28 _ Hv Hin).
Defined.

(** ** [validate_ip]: the canonical dotted quads *)

Lemma starts_with_app (p s : text) :
  starts_with p s = true -> s = p ++ skipn (length p) s.
Proof.
  revert s. induction p as [|a p IH]; intros [|b s] H; simpl in *; try discriminate; auto.
  apply andb_prop in H as [Hab Hp]. apply Ascii.eqb_eq in Hab. subst b.
  f_equal. apply IH, Hp.
Qed.

Lemma split_once_app (sep s a b : text) :
  split_once sep s = Some (a, b) -> s = a ++ sep ++ b.
Proof.
  revert a b. induction s as [|c s IH]; intros a b H; simpl in H;
    destruct (starts_with sep _) eqn:Hs.
  - inversion H; subst. apply starts_with_app in Hs. exact Hs.
  - discriminate.
  - inversion H; subst. apply starts_with_app in Hs. exact Hs.
  - destruct (split_once sep s) as [[a' b']|]; [|discriminate].
    inversion H; subst. simpl. f_equal. apply IH. reflexivity.
Qed.

(** [sep.join(parts)] *)
Fixpoint join (sep : text) (parts : list text) : text :=
  match parts with
  | [] => []
  | [x] => x
  | x :: r => x ++ sep ++ join sep r
  end.

Lemma py_split_fuel_nonempty n sep s : py_split_fuel n sep s <> [].
Proof.
  destruct n; simpl; [discriminate|].
  destruct (split_once sep s) as [[a b]|]; discriminate.
Qed.

Lemma join_py_split_fuel n sep s : join sep (py_split_fuel n sep s) = s.
Proof.
  revert s. induction n as [|n IH]; intros s; simpl; [reflexivity|].
  destruct (split_once sep s) as [[a b]|] eqn:E; [|reflexivity].
  apply split_once_app in E. subst s.
  pose proof (py_split_fuel_nonempty n sep b) as Hne.
  destruct (py_split_fuel n sep b) eqn:Hp; [contradiction|].
  rewrite <- Hp. cbn [join]. rewrite Hp. rewrite <- Hp, IH. reflexivity.
Qed.

Lemma starts_with_dot (c : ascii) (s : text) :
  starts_with (t ".") (c :: s) = Ascii.eqb "." c.
Proof. cbn [t list_ascii_of_string starts_with]. apply andb_true_r. Qed.

Lemma split_once_dot (a b : text) :
  dot_free a -> split_once (t ".") (a ++ "."%char :: b) = Some (a, b).
Proof.
  induction a as [|c a IH]; intros Ha; [reflexivity|].
  cbn [app split_once].
  assert (starts_with (t ".") (c :: a ++ "."%char :: b) = false) as ->.
  { rewrite starts_with_dot. destruct (Ascii.eqb "." c) eqn:E; [|reflexivity].
    apply Ascii.eqb_eq in E. subst c. exfalso. apply Ha. left. reflexivity. }
  rewrite IH; [reflexivity|]. intro Hin. apply Ha. right. exact Hin.
Qed.

Lemma split_once_dot_free (a : text) :
  dot_free a -> split_once (t ".") a = None.
Proof.
  induction a as [|c a IH]; intros Ha; [reflexivity|].
  cbn [split_once].
  assert (starts_with (t ".") (c :: a) = false) as ->.
  { rewrite starts_with_dot. destruct (Ascii.eqb "." c) eqn:E; [|reflexivity].
    apply Ascii.eqb_eq in E. subst c. exfalso. apply Ha. left. reflexivity. }
  rewrite IH; [reflexivity|]. intro Hin. apply Ha. right. exact Hin.
Qed.

Lemma py_split_four (n : nat) (a b c d : text) :
  (3 <= n)%nat -> dot_free a -> dot_free b -> dot_free c -> dot_free d ->
  py_split_fuel (S n) (t ".") (a ++ "."%char :: b ++ "."%char :: c ++ "."%char :: d) =
  [a; b; c; d].
Proof.
  intros Hn Ha Hb Hc Hd.
  destruct n as [|[|[|n]]]; try lia.
  cbn [py_split_fuel]. rewrite (split_once_dot _ _ Ha), (split_once_dot _ _ Hb),
    (split_once_dot _ _ Hc), (split_once_dot_free _ Hd). reflexivity.
Qed.

Lemma byte_strings_canonical :
  forallb (fun n => forallb is_digit (py_str_nat n) &&
                    match parse_octet (py_str_nat n) with
                    | Some v => (v =? Z.of_nat n)%Z
                    | None => false
                    end) (seq 0 256) = true.
Proof. vm_compute. reflexivity. Qed.

Lemma byte_string_octet (n : nat) :
  (n < 256)%nat ->
  forallb is_digit (py_str_nat n) = true /\ parse_octet (py_str_nat n) = Some (Z.of_nat n).
Proof.
  intros Hn. pose proof byte_strings_canonical as H.
  rewrite forallb_forall in H.
  specialize (H n (proj2 (in_seq 256 0 n) (conj (Nat.le_0_l n) Hn))).
  apply andb_prop in H as [H1 H2]. split; [exact H1|].
  destruct (parse_octet (py_str_nat n)) as [v|]; [|discriminate].
  apply Z.eqb_eq in H2. subst v. reflexivity.
Qed.

Definition digit_char (d : nat) : ascii := ascii_of_nat (48 + d).

(** All digit strings of one to three digits. *)
Definition digit_lists : list (list nat) :=
  let ds := seq 0 10 in
  map (fun a => [a]) ds ++
  flat_map (fun a => map (fun b => [a; b]) ds) ds ++
  flat_map (fun a => flat_map (fun b => map (fun c => [a; b; c]) ds) ds) ds.

Lemma octets_canonical :
  forallb (fun ds =>
             let o := map digit_char ds in
             match parse_octet o with
             | Some v => text_eqb o (py_str_nat (Z.to_nat v)) && (0 <=? v)%Z && (v <? 256)%Z
             | None => true
             end) digit_lists = true.
Proof. vm_compute. reflexivity. Qed.

Lemma digit_char_val (c : ascii) :
  is_digit c = true -> digit_char (nat_of_ascii c - 48) = c /\ (nat_of_ascii c - 48 < 10)%nat.
Proof.
  unfold is_digit, digit_char. intros H. apply andb_prop in H as [H1 H2].
  apply Nat.leb_le in H1. apply Nat.leb_le in H2. split; [|lia].
  replace (48 + (nat_of_ascii c - 48))%nat with (nat_of_ascii c) by lia.
  apply ascii_nat_embedding.
Qed.

Lemma in_digit_lists (ds : list nat) :
  (1 <= length ds <= 3)%nat -> Forall (fun d => d < 10)%nat ds -> In ds digit_lists.
Proof.
  intros Hl Hd. unfold digit_lists.
  assert (Hs : forall d, (d < 10)%nat -> In d (seq 0 10)) by (intros; apply in_seq; lia).
  rewrite Forall_forall in Hd.
  destruct ds as [|a [|b [|c [|e r]]]]; simpl in Hl; try lia.
  - apply in_or_app. left. apply in_map_iff. exists a.
    split; [reflexivity | apply Hs, Hd; simpl; auto].
  - apply in_or_app. right. apply in_or_app. left.
    apply in_flat_map. exists a. split; [apply Hs, Hd; simpl; auto|].
    apply in_map_iff. exists b. split; [reflexivity | apply Hs, Hd; simpl; auto].
  - apply in_or_app. right. apply in_or_app. right.
    apply in_flat_map. exists a. split; [apply Hs, Hd; simpl; auto|].
    apply in_flat_map. exists b. split; [apply Hs, Hd; simpl; auto|].
    apply in_map_iff. exists c. split; [reflexivity | apply Hs, Hd; simpl; auto].
Qed.

Lemma parse_octet_canonical (o : text) (v : Z) :
  parse_octet o = Some v -> o = py_str_nat (Z.to_nat v) /\ (0 <= v < 256)%Z.
Proof.
  intros H.
  assert (Hshape : o <> [] /\ forallb is_digit o = true /\ (length o <= 3)%nat).
  { unfold parse_octet in H. destruct o as [|c r]; [discriminate|].
    destruct (forallb is_digit (c :: r)) eqn:E1; [|discriminate].
    destruct (3 <? length (c :: r)) eqn:E2; [discriminate|].
    apply Nat.ltb_ge in E2. split; [discriminate|]. auto. }
  destruct Hshape as [Hne [Hdig Hlen]].
  set (ds := map (fun c => nat_of_ascii c - 48) o).
  assert (Ho : map digit_char ds = o).
  { unfold ds. rewrite map_map. rewrite forallb_forall in Hdig.
    rewrite <- (map_id o) at 2. apply map_ext_in. intros c Hc.
    apply digit_char_val, Hdig, Hc. }
  assert (Hin : In ds digit_lists).
  { apply in_digit_lists.
    - unfold ds. rewrite length_map. destruct o; [contradiction|simpl in *; lia].
    - apply Forall_forall. intros d Hd. unfold ds in Hd.
      apply in_map_iff in Hd as [c [<- Hc]]. rewrite forallb_forall in Hdig.
      apply digit_char_val, Hdig, Hc. }
  pose proof octets_canonical as Hc. rewrite forallb_forall in Hc.
  specialize (Hc ds Hin). cbv zeta in Hc. rewrite Ho, H in Hc.
  apply andb_prop in Hc as [Hc Hv]. apply andb_prop in Hc as [Hc Hv0].
  unfold text_eqb in Hc. destruct (list_eq_dec ascii_dec o _) as [E|]; [|discriminate].
  apply Z.leb_le in Hv0. apply Z.ltb_lt in Hv. auto.
Qed.

Lemma byte_string_digits (k : nat) (x : Z) : forallb is_digit (py_str_nat (Z.to_nat (byte_of k x))) = true.
Proof. apply (byte_string_octet _ (byte_to_nat_lt k x)). Qed.

Lemma contains_single (c : ascii) (s : text) : contains [c] s = true -> In c s.
Proof.
  induction s as [|a s IH]; simpl; [discriminate|].
  intros H. apply orb_prop in H as [H|H].
  - apply andb_prop in H as [H _]. apply Ascii.eqb_eq in H. left. auto.
  - right. apply IH, H.
Qed.

Lemma ipv4_str_no_slash (x : Z) : contains (t "/") (ipv4_str x) = false.
Proof.
  destruct (contains (t "/") (ipv4_str x)) eqn:E; [|reflexivity]. exfalso.
  apply contains_single in E. unfold ipv4_str in E.
  assert (Hd : forall k, ~ In "/"%char (py_str_nat (Z.to_nat (byte_of k x)))).
  { intros k Hin. pose proof (byte_string_digits k x) as D.
    rewrite forallb_forall in D. specialize (D _ Hin). discriminate. }
  repeat (apply in_app_iff in E as [E|E]; [eapply Hd; exact E|];
          destruct E as [E|E]; [discriminate|]).
  eapply Hd. exact E.
Qed.

Lemma ip_int_from_string_canonical (x : Z) :
  (0 <= x < 2 ^ 32)%Z -> ip_int_from_string (ipv4_str x) = Some x.
Proof.
  intros Hx.
  pose proof (fun k => proj1 (byte_string_spec _ (byte_to_nat_lt k x))) as Hd.
  pose proof (fun k => proj2 (byte_string_octet _ (byte_to_nat_lt k x))) as Ho.
  unfold ip_int_from_string, ipv4_str.
  remember (py_str_nat (Z.to_nat (byte_of 3 x)) ++ "."%char ::
            py_str_nat (Z.to_nat (byte_of 2 x)) ++ "."%char ::
            py_str_nat (Z.to_nat (byte_of 1 x)) ++ "."%char ::
            py_str_nat (Z.to_nat (byte_of 0 x))) as s eqn:Es.
  assert (Hl : (3 <= length s)%nat)
    by (rewrite Es; repeat (rewrite length_app; cbn [length]); lia).
  destruct s as [|c r] eqn:E; [simpl in Hl; lia|].
  assert (Hs : py_split (t ".") (c :: r) =
    [py_str_nat (Z.to_nat (byte_of 3 x)); py_str_nat (Z.to_nat (byte_of 2 x));
     py_str_nat (Z.to_nat (byte_of 1 x)); py_str_nat (Z.to_nat (byte_of 0 x))]).
  { unfold py_split. rewrite Es at 2. apply py_split_four; auto. }
  rewrite Hs. cbn [length Nat.eqb negb fold_left]. rewrite !Ho.
  rewrite !Z2Nat.id by apply byte_of_range.
  f_equal. pose proof (ipv4_bytes x Hx). lia.
Qed.

Lemma ip_int_from_string_sound (s : text) (x : Z) :
  ip_int_from_string s = Some x -> s = ipv4_str x /\ (0 <= x < 2 ^ 32)%Z.
Proof.
  unfold ip_int_from_string. intros H.
  destruct s as [|c r] eqn:Es; [discriminate|]. rewrite <- Es in H.
  pose proof (join_py_split_fuel (S (length s)) (t ".") s) as J.
  unfold py_split in H.
  destruct (py_split_fuel (S (length s)) (t ".") s) as [|o3 [|o2 [|o1 [|o0 [|o r']]]]];
    cbn [length Nat.eqb negb] in H; try discriminate.
  cbn [fold_left] in H.
  destruct (parse_octet o3) as [v3|] eqn:E3;
    [|destruct (parse_octet o2), (parse_octet o1), (parse_octet o0); discriminate].
  destruct (parse_octet o2) as [v2|] eqn:E2;
    [|destruct (parse_octet o1), (parse_octet o0); discriminate].
  destruct (parse_octet o1) as [v1|] eqn:E1; [|destruct (parse_octet o0); discriminate].
  destruct (parse_octet o0) as [v0|] eqn:E0; [|discriminate].
  injection H as Hx.
  apply parse_octet_canonical in E3 as [-> R3], E2 as [-> R2], E1 as [-> R1],
    E0 as [-> R0].
  assert (Hr : (0 <= x < 2 ^ 32)%Z) by (subst x; cbn; lia).
  split; [|exact Hr].
  pose proof (ipv4_bytes x Hr) as B.
  pose proof (byte_of_range 0 x). pose proof (byte_of_range 1 x).
  pose proof (byte_of_range 2 x). pose proof (byte_of_range 3 x).
  assert (byte_of 3 x = v3 /\ byte_of 2 x = v2 /\ byte_of 1 x = v1 /\ byte_of 0 x = v0)
    as [B3 [B2 [B1 B0]]] by lia.
  unfold ipv4_str. rewrite B3, B2, B1, B0, <- Es, <- J. reflexivity.
Qed.

(** ** Discovery: the complete result *)

Lemma scan_entry_ip (query : text -> text -> text -> post_result) (creds : text * text)
    (ip0 : text) :
  ip (let cam := camera_info_of ip0 (query ip0 [] []) in
      let cam := match cam with
                 | None => match fst creds with
                           | [] => None
                           | u => camera_info_of ip0 (query ip0 u (snd creds))
                           end
                 | Some _ => cam
                 end in
      match cam with Some c => c | None => Camera ip0 [] [] [] end) = ip0.
Proof.
  cbv zeta.
  destruct (camera_info_of ip0 (query ip0 [] [])) as [c0|] eqn:E1.
  - apply (camera_info_of_ip _ _ _ E1).
  - destruct (fst creds) as [|u us]; [reflexivity|].
    destruct (camera_info_of ip0 (query ip0 (u :: us) (snd creds))) as [c1|] eqn:E2.
    + apply (camera_info_of_ip _ _ _ E2).
    + reflexivity.
Qed.

(** The addresses of the result are the phase-1 hits, in host order. *)
Lemma scan_ips port_open query creds ports n :
  map ip (scan_network_for_cameras port_open query creds ports n) =
  flat_map (fun x => match check_ip_ports port_open ports n x with
                     | Some s => [s]
                     | None => []
                     end) (hosts n).
Proof.
  unfold scan_network_for_cameras. rewrite map_map.
  rewrite <- (map_id (flat_map _ _)) at 2. apply map_ext. intros ip0.
  apply scan_entry_ip.
Qed.

Lemma NoDup_map_inj {A B} (f : A -> B) (l : list A) :
  (forall x y, f x = f y -> x = y) -> NoDup l -> NoDup (map f l).
Proof.
  intros Hf. induction 1 as [|x l Hx Hl IH]; simpl; constructor; auto.
  intros Hin. apply in_map_iff in Hin as [y [Hy Hyl]].
  apply Hf in Hy. subst y. contradiction.
Qed.

Lemma zrange_NoDup (a b : Z) : NoDup (zrange a b).
Proof.
  unfold zrange. apply NoDup_map_inj; [intros x y H; lia | apply seq_NoDup].
Qed.

Lemma hosts_NoDup (n : ipv4_network) : NoDup (hosts n).
Proof.
  unfold hosts. destruct (prefixlen n =? 31)%Z; [apply zrange_NoDup|].
  destruct (prefixlen n =? 32)%Z; [|apply zrange_NoDup].
  constructor; [intros []|constructor].
Qed.

Lemma NoDup_flat_map_opt (f : Z -> option text) (l : list Z) :
  NoDup l ->
  (forall x y s, In x l -> In y l -> f x = Some s -> f y = Some s -> x = y) ->
  NoDup (flat_map (fun x => match f x with Some s => [s] | None => [] end) l).
Proof.
  induction 1 as [|x l Hx Hl IH]; intros Hinj; simpl; [constructor|].
  assert (IH' : NoDup (flat_map (fun x => match f x with Some s => [s] | None => [] end) l)).
  { apply IH. intros x' y s Hx' Hy. apply Hinj; right; assumption. }
  destruct (f x) as [s|] eqn:Ef; [|exact IH'].
  simpl. constructor; [|exact IH'].
  intros Hin. apply in_flat_map in Hin as [y [Hy Hs]].
  destruct (f y) as [s'|] eqn:Ey; [|destruct Hs].
  destruct Hs as [->|[]].
  assert (x = y) as <- by (apply (Hinj x y s); simpl; auto).
  contradiction.
Qed.

Lemma land_even_1 (a m : Z) : (Z.land a (Z.shiftl m 1) mod 2 = 0)%Z.
Proof.
  rewrite <- (Z.land_ones _ 1) by lia.
  rewrite <- Z.land_assoc.
  rewrite Z.shiftl_mul_pow2 by lia.
  rewrite (Z.land_ones _ 1) by lia.
  rewrite Z.pow_1_r, Z.mod_mul by lia.
  apply Z.land_0_r.
Qed.

(** In a /31 network the broadcast address follows the network address. *)
Lemma broadcast_31 (n : ipv4_network) :
  prefixlen n = 31%Z -> broadcast_address n = (network_address n + 1)%Z.
Proof.
  intros Hp. unfold broadcast_address, hostmask, network_address, netmask.
  rewrite Hp. replace (32 - 31)%Z with 1%Z by reflexivity.
  replace (Z.ones 1) with 1%Z by reflexivity.
  assert (H0 : Z.land (Z.land (net_ip n) (Z.shiftl (Z.ones 31) 1)) 1 = 0%Z).
  { change 1%Z with (Z.ones 1) at 2. rewrite Z.land_ones by lia.
    apply land_even_1. }
  rewrite <- Z.lxor_lor by exact H0.
  rewrite <- Z.add_nocarry_lxor by exact H0. reflexivity.
Qed.

(** In a /32 network the network address is the address itself. *)
Lemma network_32 (n : ipv4_network) :
  valid_network n -> prefixlen n = 32%Z -> network_address n = net_ip n.
Proof.
  intros [Hip _] Hp. unfold network_address, netmask. rewrite Hp.
  replace (32 - 32)%Z with 0%Z by reflexivity. rewrite Z.shiftl_0_r.
  rewrite Z.land_ones by lia. apply Z.mod_small. exact Hip.
Qed.

Lemma check_ip_ports_network port_open ports n :
  check_ip_ports port_open ports n (network_address n) = None.
Proof. unfold check_ip_ports. rewrite Z.eqb_refl. reflexivity. Qed.

Lemma check_ip_ports_broadcast port_open ports n :
  check_ip_ports port_open ports n (broadcast_address n) = None.
Proof. unfold check_ip_ports. rewrite Z.eqb_refl, orb_true_r. reflexivity. Qed.

Lemma flat_map_none (f : Z -> option text) (l : list Z) :
  (forall x, In x l -> f x = None) ->
  flat_map (fun x => match f x with Some s => [s] | None => [] end) l = [].
Proof.
  induction l as [|x l IH]; intros H; [reflexivity|]. simpl.
  rewrite H by (left; reflexivity). apply IH. intros y Hy. apply H. right. exact Hy.
Qed.

(** X1: [validate_ip] accepts exactly the canonical dotted-quad strings,
    the texts [str(IPv4Address(x))] of the 32-bit numbers [x]: four decimal
    octets in 0..255 without leading zeros, separated by dots. *)
Theorem validate_ip_canonical (s : text) :
  validate_ip s = true <-> exists x, (0 <= x < 2 ^ 32)%Z /\ s = ipv4_str x.
Proof.
  unfold validate_ip, IPv4Address. split.
  - destruct (contains (t "/") s); [discriminate|].
    destruct (ip_int_from_string s) as [x|] eqn:E; [|discriminate]. intros _.
    apply ip_int_from_string_sound in E as [-> Hx]. exists x. auto.
  - intros [x [Hx ->]].
    rewrite ipv4_str_no_slash, (ip_int_from_string_canonical x Hx). reflexivity.
Qed.

(** X2: the scan reports exactly the usable hosts of the range that answer
    on a scanned port: an address is in the result iff it is the text of a
    host [x] of [hosts()], other than the network and the broadcast
    address, for which some port of [scan_ports] is open. *)
Theorem scan_network_for_cameras_addresses port_open query creds ports n s :
  In s (map ip (scan_network_for_cameras port_open query creds ports n)) <->
  exists x, In x (hosts n) /\ x <> network_address n /\ x <> broadcast_address n /\
            existsb (port_open (ipv4_str x)) ports = true /\ s = ipv4_str x.
Proof.
  rewrite scan_ips, in_flat_map. split.
  - intros [x [Hx Hs]].
    destruct (check_ip_ports port_open ports n x) as [s'|] eqn:E; [|destruct Hs].
    destruct Hs as [<-|[]].
    destruct (check_ip_ports_some _ _ _ _ _ E) as [-> [Hn Hb]].
    exists x. repeat split; auto.
    unfold check_ip_ports in E. destruct (_ || _); [discriminate|].
    destruct (existsb _ _); [reflexivity | discriminate].
  - intros [x [Hx [Hn [Hb [Hp ->]]]]]. exists x. split; [exact Hx|].
    unfold check_ip_ports. apply Z.eqb_neq in Hn, Hb. rewrite Hn, Hb, Hp.
    left. reflexivity.
Qed.

(** X3: in a valid range no two cameras of the scan have the same address. *)
Theorem scan_network_for_cameras_no_duplicates port_open query creds ports n :
  valid_network n ->
  NoDup (map ip (scan_network_for_cameras port_open query creds ports n)).
Proof.
  intros Hv. rewrite scan_ips. apply NoDup_flat_map_opt; [apply hosts_NoDup|].
  intros x y s Hx Hy Ex Ey.
  apply check_ip_ports_some in Ex as [-> _]. apply check_ip_ports_some in Ey as [Ey _].
  apply ipv4_str_inj; [apply (hosts_range n); auto | apply (hosts_range n); auto | exact Ey].
Qed.

Definition probe_5_9 (s : text) (port : Z) : bool :=
  (text_eqb s (t "192.168.1.5") || text_eqb s (t "192.168.1.9")) && (port =? 80)%Z.

Lemma scan_network_for_cameras_no_duplicates_witness :
  valid_network net_28 /\
  NoDup (map ip (scan_network_for_cameras probe_5_9 info_reply ([], []) [80; 8080]%Z net_28)).
Proof.
  assert (Hv : valid_network net_28) by (unfold valid_network, net_28; cbn; lia).
  split; [exact Hv|].
  exact (scan_network_for_cameras_no_duplicates probe_5_9 info_reply ([], []) [80; 8080]%Z
           net_28 Hv).
Defined.

(** X4: scanning a /31 or /32 range finds no camera, whatever answers:
    [hosts()] lists only the network and broadcast addresses there (both
    addresses of a /31, the single one of a /32), and phase 1 drops them. *)
Theorem scan_network_for_cameras_31_32 port_open query creds ports n :
  valid_network n -> (prefixlen n = 31 \/ prefixlen n = 32)%Z ->
  scan_network_for_cameras port_open query creds ports n = [].
Proof.
  intros Hv Hp.
  assert (Hall : forall x, In x (hosts n) -> check_ip_ports port_open ports n x = None).
  { intros x Hx. unfold hosts in Hx. destruct Hp as [Hp|Hp]; rewrite Hp in Hx;
      cbn [Z.eqb Pos.eqb] in Hx.
    - unfold zrange in Hx. rewrite broadcast_31 in Hx by exact Hp.
      replace (network_address n + 1 + 1 - network_address n)%Z with 2%Z in Hx by lia.
      simpl in Hx. destruct Hx as [<-|[<-|[]]].
      + rewrite Z.add_0_r. apply check_ip_ports_network.
      + rewrite <- broadcast_31 by exact Hp. apply check_ip_ports_broadcast.
    - destruct Hx as [<-|[]]. rewrite <- (network_32 n Hv Hp).
      apply check_ip_ports_network. }
  unfold scan_network_for_cameras. cbv zeta. rewrite (flat_map_none _ _ Hall).
  reflexivity.
Qed.

(** A /31 point-to-point link, every port answering. *)
Definition net_31 : ipv4_network := {| net_ip := 167772164; prefixlen := 31 |}.

Definition all_open (s : text) (port : Z) : bool := true.

Lemma scan_network_for_cameras_31_32_witness :
  valid_network net_31 /\ (prefixlen net_31 = 31 \/ prefixlen net_31 = 32)%Z /\
  scan_network_for_cameras all_open info_reply ([], []) [80]%Z net_31 = [].
Proof.
  assert (Hv : valid_network net_31) by (unfold valid_network, net_31; cbn; lia).
  assert (Hp : (prefixlen net_31 = 31 \/ prefixlen net_31 = 32)%Z) by (left; reflexivity).
  split; [exact Hv|]. split; [exact Hp|].
  exact (scan_network_for_cameras_31_32 all_open info_reply ([], []) [80]%Z net_31 Hv Hp).
Defined.

(** ** Event traces *)

(** [Emits P m]: a run of [m] only appends events satisfying [P] to the log. *)
Definition Emits (P : event -> bool) {A} (m : M A) : Prop :=
  forall w, exists new, events (snd (m w)) = new ++ events w /\ forallb P new = true.

Section EmitsLemmas.
Variable P : event -> bool.

Lemma Emits_ret {A} (a : A) : Emits P (ret a).
Proof. intros w. exists []. auto. Qed.

Lemma Emits_raise {A} (e : exc) : Emits P (@raise A e).
Proof. intros w. exists []. auto. Qed.

Lemma Emits_bind {A B} (m : M A) (k : A -> M B) :
  Emits P m -> (forall a, Emits P (k a)) -> Emits P (bind m k).
Proof.
  intros Hm Hk w. unfold bind. destruct (Hm w) as [n1 [H1 P1]].
  destruct (m w) as [[a|e] w1]; simpl in H1.
  - destruct (Hk a w1) as [n2 [H2 P2]]. exists (n2 ++ n1).
    rewrite H2, H1, app_assoc, forallb_app, P1, P2. auto.
  - exists n1. auto.
Qed.

Lemma Emits_try {A} (m : M A) (h : exc -> M A) :
  Emits P m -> (forall e, Emits P (h e)) -> Emits P (try_except m h).
Proof.
  intros Hm Hh w. unfold try_except. destruct (Hm w) as [n1 [H1 P1]].
  destruct (m w) as [[a|e] w1]; simpl in H1.
  - exists n1. auto.
  - destruct (Hh e w1) as [n2 [H2 P2]]. exists (n2 ++ n1).
    rewrite H2, H1, app_assoc, forallb_app, P1, P2. auto.
Qed.

Lemma Emits_post k tgt :
  (forall r, P (EPost k tgt r) = true) -> Emits P (post k tgt).
Proof.
  intros HP w. unfold post.
  destruct (posts w) as [|r rest];
    [exists [EPost k tgt (Fail ConnectionError)] | exists [EPost k tgt r]];
    [|destruct r]; simpl; rewrite ?HP; auto.
Qed.

Lemma Emits_probe tgt port :
  (forall b, P (EProbe tgt port b) = true) -> Emits P (check_onvif_port tgt port).
Proof.
  intros HP w. unfold check_onvif_port.
  destruct (probes w) as [|b rest]; [exists [EProbe tgt port false] | exists [EProbe tgt port b]];
    simpl; rewrite HP; auto.
Qed.

Lemma Emits_sleep secs : P (ESleep secs) = true -> Emits P (sleep secs).
Proof. intros HP w. exists [ESleep secs]. simpl. rewrite HP. auto. Qed.

Lemma Emits_update_cameras old_ip new_ip : Emits P (update_cameras old_ip new_ip).
Proof. intros w. exists []. auto. Qed.

End EmitsLemmas.

Ltac emits_tac :=
  repeat match goal with
  | |- Emits _ (bind _ _) => apply Emits_bind; [|intros ?]
  | |- Emits _ (try_except _ _) => apply Emits_try; [|intros ?]
  | |- Emits _ (if ?b then _ else _) => destruct b
  | |- Emits _ (match ?x with _ => _ end) => destruct x
  | |- Emits _ (let _ := _ in _) => cbv zeta
  | |- Emits _ (ret _) => apply Emits_ret
  | |- Emits _ (raise _) => apply Emits_raise
  | |- Emits _ (update_cameras _ _) => apply Emits_update_cameras
  | |- Emits _ (post _ _) => apply Emits_post; intros ?; reflexivity
  | |- Emits _ (check_onvif_port _ _) => apply Emits_probe; intros ?; reflexivity
  | |- Emits _ (sleep _) => apply Emits_sleep; reflexivity
  end.

(** Requests that change the device's configuration. *)
Definition mutating (e : event) : bool :=
  match e with
  | EPost KGetDeviceInformation _ _ | EPost KGetNetworkInterfaces _ _ => false
  | EPost _ _ _ => true
  | _ => false
  end.

Definition is_primary (e : event) : bool :=
  match e with EPost KSetPrimary _ _ => true | _ => false end.

Definition not_primary (e : event) : bool := negb (is_primary e).
Definition not_mutating (e : event) : bool := negb (mutating e).

Lemma Emits_get_camera_info P ip0 :
  (forall r, P (EPost KGetDeviceInformation ip0 r) = true) -> Emits P (get_camera_info ip0).
Proof.
  intros HP. unfold get_camera_info. apply Emits_try; [|intros; apply Emits_ret].
  apply Emits_bind; [apply Emits_post, HP | intros [s b]]. emits_tac.
Qed.

Lemma Emits_get_current_network_config P ip0 :
  (forall r, P (EPost KGetNetworkInterfaces ip0 r) = true) ->
  Emits P (get_current_network_config ip0).
Proof.
  intros HP. unfold get_current_network_config. apply Emits_try; [|intros; apply Emits_ret].
  apply Emits_bind; [apply Emits_post, HP | intros [s b]]. emits_tac.
Qed.

Lemma Emits_get_network_interfaces P ip0 :
  (forall r, P (EPost KGetNetworkInterfaces ip0 r) = true) ->
  Emits P (get_network_interfaces ip0).
Proof.
  intros HP. unfold get_network_interfaces. apply Emits_try; [|intros; apply Emits_ret].
  apply Emits_bind; [apply Emits_post, HP | intros [s b]]. emits_tac.
Qed.

Lemma Emits_verify_ip_change P new_ip n :
  (forall r, P (EPost KGetDeviceInformation new_ip r) = true) ->
  (forall b, P (EProbe new_ip 80 b) = true) -> P (ESleep 1) = true ->
  Emits P (verify_ip_change new_ip n).
Proof.
  intros H1 H2 H3. unfold verify_ip_change. induction n as [|n IH]; simpl.
  - apply Emits_ret.
  - apply Emits_bind; [|intros [|]; [apply Emits_ret | exact IH]].
    unfold verify_attempt. apply Emits_try; [|intros; apply Emits_ret].
    apply Emits_bind; [apply Emits_probe, H2|intros b].
    apply Emits_bind; [|intros [|]; [apply Emits_ret | apply Emits_bind;
      [apply Emits_sleep, H3 | intros; apply Emits_ret]]].
    destruct b; [|apply Emits_ret].
    apply Emits_bind; [apply Emits_get_camera_info, H1 | intros; apply Emits_ret].
Qed.

Lemma Emits_prepare_not_primary old_ip : Emits not_primary (prepare_ip_change old_ip).
Proof.
  unfold prepare_ip_change.
  apply Emits_bind; [apply Emits_get_current_network_config; reflexivity | intros cfg].
  apply Emits_bind; [apply Emits_get_network_interfaces; reflexivity | intros ifs].
  apply Emits_bind; [|intros; apply Emits_ret].
  destruct (dhcp_enabled cfg); [|apply Emits_ret].
  apply Emits_bind; [|intros [|]; [apply Emits_sleep; reflexivity | apply Emits_ret]].
  unfold disable_dhcp_first. emits_tac.
Qed.

Lemma Emits_check_after_settle_not_primary old_ip new_ip gateway prefix_length
    all_tokens current_config :
  Emits not_primary
    (check_after_settle old_ip new_ip gateway prefix_length all_tokens current_config).
Proof.
  unfold check_after_settle.
  apply Emits_bind; [apply Emits_get_current_network_config; reflexivity | intros cfg].
  apply Emits_bind; [apply Emits_probe; reflexivity | intros still].
  destruct (_ || _).
  - apply Emits_bind; [apply Emits_verify_ip_change; reflexivity | intros [|]]; emits_tac.
  - apply Emits_bind; [|intros; emits_tac].
    unfold alternative_attempt, read_alt_token. emits_tac.
    all: try (apply Emits_get_current_network_config; reflexivity).
    all: try (apply Emits_verify_ip_change; reflexivity).
    unfold try_alternative_with_linklocal_preserved. emits_tac.
Qed.

(** A [try] block that starts with one request: the log gains that
    request, then the events of the rest or of the handler. *)
Lemma try_post_then (P : event -> bool) {A} k tgt (cont : Z * text -> M A)
    (h : exc -> M A) w :
  (forall a, Emits P (cont a)) -> (forall e, Emits P (h e)) ->
  exists r after,
    events (snd (try_except (bind (post k tgt) cont) h w)) =
      after ++ EPost k tgt r :: events w /\ forallb P after = true.
Proof.
  intros Hc Hh. unfold try_except, bind, post.
  destruct (posts w) as [|r rest]; [exists (Fail ConnectionError) | exists r].
  - cbn. match goal with |- context [h ?e ?w1] => destruct (Hh e w1) as [n [Hn Pn]] end.
    exists n. rewrite Hn. auto.
  - destruct r as [s b|e]; cbn.
    + match goal with |- context [cont ?a ?w1] => destruct (Hc a w1) as [n1 [H1 P1]];
        destruct (cont a w1) as [[v|e] w2] eqn:E end; simpl in H1.
      * exists n1. cbn [snd]. rewrite H1. auto.
      * destruct (Hh e w2) as [n2 [H2 P2]]. exists (n2 ++ n1).
        rewrite H2, H1, app_assoc, forallb_app, P1, P2. auto.
    + match goal with |- context [h ?e ?w1] => destruct (Hh e w1) as [n [Hn Pn]] end.
      exists n. rewrite Hn. auto.
Qed.

Lemma prepare_no_raise old_ip : no_raise (prepare_ip_change old_ip).
Proof.
  unfold prepare_ip_change, get_current_network_config, get_network_interfaces,
    disable_dhcp_first.
  no_raise_tac.
Qed.

Lemma text_eqb_refl (a : text) : text_eqb a a = true.
Proof. apply text_eqb_eq. reflexivity. Qed.

Lemma no_raise_get_current_network_config ip0 : no_raise (get_current_network_config ip0).
Proof. unfold get_current_network_config. no_raise_tac. Qed.

Lemma no_raise_get_network_interfaces ip0 : no_raise (get_network_interfaces ip0).
Proof. unfold get_network_interfaces. no_raise_tac. Qed.

(** [e] is a GetNetworkInterfaces request to [tgt]. *)
Definition is_interfaces_query (tgt : text) (e : event) : bool :=
  match e with EPost KGetNetworkInterfaces a _ => text_eqb a tgt | _ => false end.

(** [m] returns [False] and sends nothing but GetNetworkInterfaces
    requests to [tgt]. *)
Definition Declines (tgt : text) (m : M bool) : Prop :=
  forall w, fst (m w) = Ok false /\
            exists new, events (snd (m w)) = new ++ events w /\
                        forallb (is_interfaces_query tgt) new = true.

Lemma is_interfaces_query_tgt (tgt : text) r :
  is_interfaces_query tgt (EPost KGetNetworkInterfaces tgt r) = true.
Proof. cbn. apply text_eqb_refl. Qed.

Lemma Declines_ret tgt : Declines tgt (ret false).
Proof. intros w. split; [reflexivity|]. exists []. auto. Qed.

Lemma Declines_bind {A} tgt (m : M A) (k : A -> M bool) :
  no_raise m -> Emits (is_interfaces_query tgt) m -> (forall a, Declines tgt (k a)) ->
  Declines tgt (bind m k).
Proof.
  intros Hn He Hk w. unfold bind.
  destruct (Hn w) as [a Ha]. destruct (He w) as [n1 [H1 P1]].
  destruct (m w) as [r w1]. simpl in Ha, H1. subst r.
  destruct (Hk a w1) as [Hr [n2 [H2 P2]]]. split; [exact Hr|].
  exists (n2 ++ n1). rewrite H2, H1, app_assoc, forallb_app, P1, P2. auto.
Qed.

Lemma Declines_set_dhcp_mode ip0 enable_dhcp : Declines ip0 (set_dhcp_mode ip0 enable_dhcp false).
Proof.
  unfold set_dhcp_mode.
  apply Declines_bind; [apply no_raise_get_current_network_config
    | apply Emits_get_current_network_config, is_interfaces_query_tgt | intros cfg].
  apply Declines_bind; [apply no_raise_get_network_interfaces
    | apply Emits_get_network_interfaces, is_interfaces_query_tgt | intros ifs].
  apply Declines_ret.
Qed.

Lemma Declines_show_detailed_network_info ip0 :
  Declines ip0 (show_detailed_network_info ip0 ;; ret false).
Proof.
  unfold show_detailed_network_info.
  apply Declines_bind; [| apply Emits_bind;
                          [apply Emits_get_current_network_config, is_interfaces_query_tgt
                          | intros; apply Emits_ret]
                        | intros; apply Declines_ret].
  apply no_raise_bind; [apply no_raise_get_current_network_config | intros; apply no_raise_ret].
Qed.

Lemma keeps_manage_dhcp_settings camera0 lines :
  keeps (manage_dhcp_settings camera0 lines).
Proof.
  unfold manage_dhcp_settings, set_dhcp_mode_prompt, set_dhcp_mode, show_detailed_network_info.
  keeps_tac; auto with frame.
Qed.

(** X5: the DHCP menu changes nothing on the camera unless the user picks
    option 1 or 2 and then confirms at the prompt of [set_dhcp_mode]: when
    the menu answer is another one, or the confirmation is typed and is not
    y or yes, it returns False, sends nothing but GetNetworkInterfaces
    requests to the camera and leaves [self.cameras] unchanged. *)
Theorem manage_dhcp_settings_read_only camera0 choice rest w :
  (strip choice <> t "1" /\ strip choice <> t "2") \/
  (exists confirm rest', rest = confirm :: rest' /\ confirmed confirm = false) ->
  fst (manage_dhcp_settings camera0 (choice :: rest) w) = Ok false /\
  (exists new, events (snd (manage_dhcp_settings camera0 (choice :: rest) w)) = new ++ events w /\
               forallb (is_interfaces_query (ip camera0)) new = true) /\
  cameras (snd (manage_dhcp_settings camera0 (choice :: rest) w)) = cameras w.
Proof.
  intros H.
  assert (Hd : Declines (ip camera0) (manage_dhcp_settings camera0 (choice :: rest))).
  { unfold manage_dhcp_settings.
    apply Declines_bind; [apply no_raise_get_current_network_config
      | apply Emits_get_current_network_config, is_interfaces_query_tgt | intros cfg].
    cbn [input]. cbv zeta.
    destruct (text_eqb (strip choice) (t "1")) eqn:E1.
    { apply text_eqb_eq in E1. destruct H as [[H1 _]|[confirm [rest' [-> Hc]]]];
        [contradiction|].
      unfold set_dhcp_mode_prompt. cbn [input]. rewrite Hc. apply Declines_set_dhcp_mode. }
    destruct (text_eqb (strip choice) (t "2")) eqn:E2.
    { apply text_eqb_eq in E2. destruct H as [[_ H2]|[confirm [rest' [-> Hc]]]];
        [contradiction|].
      unfold set_dhcp_mode_prompt. cbn [input]. rewrite Hc. apply Declines_set_dhcp_mode. }
    destruct (text_eqb (strip choice) (t "3")).
    - apply Declines_show_detailed_network_info.
    - apply Declines_ret. }
  destruct (Hd w) as [Hr He]. split; [exact Hr|]. split; [exact He|].
  apply keeps_manage_dhcp_settings.
Qed.

Lemma manage_dhcp_settings_read_only_witness :
  ((strip (t "2") <> t "1" /\ strip (t "2") <> t "2") \/
   (exists confirm rest', [t " No"] = confirm :: rest' /\ confirmed confirm = false)) /\
  fst (manage_dhcp_settings (Camera ip_a [] [] []) (t "2" :: [t " No"])
         (script [Resp 200 dhcp_cfg; Resp 200 dhcp_cfg] [] [])) = Ok false /\
  (exists new, events (snd (manage_dhcp_settings (Camera ip_a [] [] []) (t "2" :: [t " No"])
                  (script [Resp 200 dhcp_cfg; Resp 200 dhcp_cfg] [] []))) =
               new ++ events (script [Resp 200 dhcp_cfg; Resp 200 dhcp_cfg] [] []) /\
               forallb (is_interfaces_query (ip (Camera ip_a [] [] []))) new = true) /\
  cameras (snd (manage_dhcp_settings (Camera ip_a [] [] []) (t "2" :: [t " No"])
                  (script [Resp 200 dhcp_cfg; Resp 200 dhcp_cfg] [] []))) =
  cameras (script [Resp 200 dhcp_cfg; Resp 200 dhcp_cfg] [] []).
Proof.
  assert (H : (strip (t "2") <> t "1" /\ strip (t "2") <> t "2") \/
              (exists confirm rest', [t " No"] = confirm :: rest' /\ confirmed confirm = false)).
  { right. exists (t " No"), []. split; [reflexivity|vm_compute; reflexivity]. }
  split; [exact H|].
  exact (manage_dhcp_settings_read_only (Camera ip_a [] [] []) (t "2") [t " No"]
           (script [Resp 200 dhcp_cfg; Resp 200 dhcp_cfg] [] []) H).
Defined.

(** X6: every call of [execute_ip_change] sends exactly one primary
    SetNetworkInterfaces request, to the old address, whatever the device
    answers: the preparation before it and the checks after it never send
    another one. *)
Theorem execute_ip_change_one_primary_request old_ip new_ip gateway prefix_length w :
  exists before r after,
    events (snd (execute_ip_change old_ip new_ip gateway prefix_length w)) =
      after ++ EPost KSetPrimary old_ip r :: before ++ events w /\
    forallb not_primary (before ++ after) = true.
Proof.
  unfold execute_ip_change, bind at 1.
  destruct (Emits_prepare_not_primary old_ip w) as [before [Hb Pb]].
  destruct (prepare_no_raise old_ip w) as [[all_tokens cc] Hp].
  destruct (prepare_ip_change old_ip w) as [r1 w1]. simpl in Hp, Hb. subst r1.
  cbv beta iota. unfold send_ip_change.
  match goal with
  | |- context [try_except (bind (post ?k ?tgt) ?c) ?h w1] =>
      destruct (try_post_then not_primary k tgt c h w1) as [r [after [Ha Pa]]]
  end.
  - intros [status body]. cbv beta iota. emits_tac.
    apply Emits_check_after_settle_not_primary.
  - intros e. apply Emits_ret.
  - exists before, r, after. rewrite Ha, Hb. split; [reflexivity|].
    rewrite forallb_app, Pb, Pa. reflexivity.
Qed.

(** ** Verification timing *)








(** ** The input dialogue of [change_camera_ip] *)





Lemma input_some (lines : list text) (l : text) (rest : list text) :
  input lines = Some (l, rest) -> lines = l :: rest.
Proof. destruct lines; cbn; congruence. Qed.







(** ** The camera menu *)

(** X10: [select_camera] returns a camera exactly when the typed number,
    once stripped, is read by [int()] as some [k + 1] with [k] an index of
    [self.cameras]; the camera is then the one listed at that index, and
    one line of input was consumed. *)
Theorem select_camera_some cams l rest c rest' :
  select_camera cams (l :: rest) = Some (Some c, rest') <->
  rest' = rest /\
  exists k, py_int (strip l) = Some (Z.of_nat k + 1)%Z /\ nth_error cams k = Some c.
Proof.
  split.
  - intros H. destruct cams as [|c0 cs]; [discriminate|].
    cbn [select_camera input] in H. cbv zeta in H.
    destruct (text_eqb (strip l) (t "0")); [discriminate|].
    destruct (py_int (strip l)) as [v|] eqn:Ev; [|discriminate].
    destruct ((0 <=? v - 1)%Z && (v - 1 <? Z.of_nat (length (c0 :: cs)))%Z) eqn:Ei;
      [|discriminate].
    injection H as Hc <-. split; [reflexivity|].
    apply andb_prop in Ei as [E0 _]. apply Z.leb_le in E0.
    exists (Z.to_nat (v - 1)). split; [f_equal; lia|exact Hc].
  - intros [-> [k [Ev Hc]]].
    destruct cams as [|c0 cs]; [destruct k; discriminate|].
    cbn [select_camera input]. cbv zeta.
    destruct (text_eqb (strip l) (t "0")) eqn:E0.
    + apply text_eqb_eq in E0. rewrite E0 in Ev.
      assert (Hz : py_int (t "0") = Some 0%Z) by reflexivity.
      rewrite Hz in Ev. injection Ev. lia.
    + rewrite Ev.
      assert (Hk : (k < length (c0 :: cs))%nat).
      { apply nth_error_Some. rewrite Hc. discriminate. }
      replace (Z.of_nat k + 1 - 1)%Z with (Z.of_nat k) by lia.
      rewrite Nat2Z.id.
      destruct (0 <=? Z.of_nat k)%Z eqn:E1; [|apply Z.leb_gt in E1; lia].
      destruct (Z.of_nat k <? Z.of_nat (length (c0 :: cs)))%Z eqn:E2;
        [|apply Z.ltb_ge in E2; lia].
      cbn [andb]. rewrite Hc. reflexivity.
Qed.

(** ** The XML shown by [show_detailed_network_info] *)







(** ** Nothing is sent before the confirmation *)


(** ** Networks typed by the user: [IPv4Network] and [get_network_range] *)

Lemma bit_length_nonneg (x : Z) : (0 <= bit_length x)%Z.
Proof.
  unfold bit_length. destruct (x =? 0)%Z; [lia|].
  pose proof (Z.log2_nonneg (Z.abs x)). lia.
Qed.

Lemma count_righthand_zero_bits_range (number : Z) :
  (0 <= count_righthand_zero_bits number 32 <= 32)%Z.
Proof.
  unfold count_righthand_zero_bits. destruct (number =? 0)%Z; [lia|].
  pose proof (bit_length_nonneg (Z.land (Z.lnot number) (number - 1))). lia.
Qed.

Lemma prefix_from_ip_int_range (ip_int p : Z) :
  prefix_from_ip_int ip_int = Some p -> (0 <= p <= 32)%Z.
Proof.
  unfold prefix_from_ip_int.
  pose proof (count_righthand_zero_bits_range ip_int) as C.
  destruct (_ =? _)%Z; intros H; [|discriminate].
  assert (p = 32 - count_righthand_zero_bits ip_int 32)%Z by congruence. lia.
Qed.

Lemma make_netmask_range (arg : text) (p : Z) :
  make_netmask arg = Some p -> (0 <= p <= 32)%Z.
Proof.
  unfold make_netmask. destruct (prefix_from_prefix_string arg) as [q|] eqn:E.
  - intros H. injection H as <-. unfold prefix_from_prefix_string in E.
    destruct arg as [|c r]; [discriminate|].
    destruct (negb _); [discriminate|].
    destruct (py_int _) as [v|]; [|discriminate].
    destruct (0 <=? v)%Z eqn:E1, (v <=? 32)%Z eqn:E2; cbn in E; try discriminate.
    injection E as <-. lia.
  - unfold prefix_from_ip_string.
    destruct (ip_int_from_string arg) as [ip_int|]; [|discriminate].
    destruct (prefix_from_ip_int ip_int) as [q|] eqn:E1.
    + intros H. injection H as <-. exact (prefix_from_ip_int_range _ _ E1).
    + apply prefix_from_ip_int_range.
Qed.

Lemma IPv4Address_range (s : text) (x : Z) : IPv4Address s = Some x -> (0 <= x < 2 ^ 32)%Z.
Proof.
  unfold IPv4Address. destruct (contains (t "/") s); [discriminate|].
  intros H. exact (proj2 (ip_int_from_string_sound s x H)).
Qed.

(** X13: every network that [ipaddress.IPv4Network] accepts from a string
    is a 32-bit address with a prefix length in 0..32: the networks that
    [validate_network] lets through meet the validity hypothesis of the
    scan properties. *)
Theorem IPv4Network_valid (s : text) (n : ipv4_network) :
  IPv4Network s = Some n -> valid_network n.
Proof.
  unfold IPv4Network, valid_network.
  destruct (py_split (t "/") s) as [|addr [|mask [|x r]]]; try discriminate.
  - destruct (IPv4Address addr) as [a|] eqn:Ea; [|discriminate].
    intros H. injection H as <-. cbn.
    pose proof (IPv4Address_range _ _ Ea). lia.
  - destruct (IPv4Address addr) as [a|] eqn:Ea; [|discriminate].
    destruct (make_netmask mask) as [p|] eqn:Ep; [|discriminate].
    intros H. injection H as <-. cbn.
    pose proof (IPv4Address_range _ _ Ea). pose proof (make_netmask_range _ _ Ep). lia.
Qed.

Lemma IPv4Network_valid_witness :
  IPv4Network (t "192.168.1.0/24") = Some {| net_ip := 3232235776; prefixlen := 24 |} /\
  valid_network {| net_ip := 3232235776; prefixlen := 24 |}.
Proof.
  assert (H : IPv4Network (t "192.168.1.0/24") =
              Some {| net_ip := 3232235776; prefixlen := 24 |}) by (vm_compute; reflexivity).
  exact (conj H (IPv4Network_valid (t "192.168.1.0/24") _ H)).
Defined.

Lemma contains_single_in (c : ascii) (s : text) : In c s -> contains [c] s = true.
Proof.
  induction s as [|a s IH]; cbn [In]; [contradiction|].
  intros [->|H]; cbn [contains starts_with].
  - rewrite Ascii.eqb_refl. reflexivity.
  - rewrite IH by exact H. apply orb_true_r.
Qed.

Lemma split_once_single (c : ascii) (a b : text) :
  ~ In c a -> split_once [c] (a ++ c :: b) = Some (a, b).
Proof.
  induction a as [|d a IH]; intros Ha; cbn [app split_once starts_with].
  - rewrite Ascii.eqb_refl. reflexivity.
  - destruct (Ascii.eqb c d) eqn:E.
    + apply Ascii.eqb_eq in E. subst d. exfalso. apply Ha. left. reflexivity.
    + cbn [andb orb]. rewrite IH by (intros H; apply Ha; right; exact H). reflexivity.
Qed.

Lemma split_once_single_free (c : ascii) (a : text) :
  ~ In c a -> split_once [c] a = None.
Proof.
  induction a as [|d a IH]; intros Ha; cbn [split_once starts_with]; [reflexivity|].
  destruct (Ascii.eqb c d) eqn:E.
  - apply Ascii.eqb_eq in E. subst d. exfalso. apply Ha. left. reflexivity.
  - cbn [andb]. rewrite IH by (intros H; apply Ha; right; exact H). reflexivity.
Qed.

Lemma IPv4Network_slash (addr mask : text) :
  ~ In "/"%char addr -> ~ In "/"%char mask ->
  IPv4Network (addr ++ "/"%char :: mask) =
  match IPv4Address addr, make_netmask mask with
  | Some a, Some p => Some {| net_ip := a; prefixlen := p |}
  | _, _ => None
  end.
Proof.
  intros Ha Hm. unfold IPv4Network, py_split.
  rewrite length_app. cbn [length].
  replace (length addr + S (length mask))%nat with (S (length addr + length mask)) by lia.
  change (t "/") with ["/"%char].
  cbn [py_split_fuel]. rewrite split_once_single by exact Ha.
  cbn [py_split_fuel]. rewrite split_once_single_free by exact Hm. reflexivity.
Qed.

Lemma IPv4Network_single (addr : text) :
  ~ In "/"%char addr ->
  IPv4Network addr =
  match IPv4Address addr with Some a => Some {| net_ip := a; prefixlen := 32 |} | None => None end.
Proof.
  intros Ha. unfold IPv4Network, py_split. change (t "/") with ["/"%char].
  cbn [py_split_fuel]. rewrite split_once_single_free by exact Ha. reflexivity.
Qed.

Lemma ipv4_str_slash_free (x : Z) : ~ In "/"%char (ipv4_str x).
Proof.
  intros H. apply (contains_single_in "/"%char) in H.
  change [("/")%char] with (t "/") in H. rewrite ipv4_str_no_slash in H. discriminate.
Qed.

Lemma IPv4Address_ipv4_str (x : Z) : (0 <= x < 2 ^ 32)%Z -> IPv4Address (ipv4_str x) = Some x.
Proof.
  intros Hx. unfold IPv4Address. rewrite ipv4_str_no_slash.
  apply ip_int_from_string_canonical, Hx.
Qed.

Lemma in_zrange_intro (a b x : Z) : (a <= x < b)%Z -> In x (zrange a b).
Proof.
  intros Hx. unfold zrange. apply in_map_iff. exists (Z.to_nat (x - a)). split; [lia|].
  apply in_seq. lia.
Qed.

Definition opt_z_eqb (o : option Z) (v : Z) : bool :=
  match o with Some q => (q =? v)%Z | None => false end.

(** The three notations of a mask, checked for each prefix length. *)
Definition mask_forms_ok (p : Z) : bool :=
  let n := {| net_ip := 0; prefixlen := p |} in
  negb (existsb (Ascii.eqb "/"%char) (py_str_nat (Z.to_nat p))) &&
  opt_z_eqb (make_netmask (py_str_nat (Z.to_nat p))) p &&
  opt_z_eqb (make_netmask (ipv4_str (netmask n))) p &&
  ((p =? 0)%Z || (p =? 32)%Z || opt_z_eqb (make_netmask (ipv4_str (hostmask n))) p).

Lemma mask_forms_all : forallb mask_forms_ok (zrange 0 33) = true.
Proof. vm_compute. reflexivity. Qed.

Lemma mask_forms (p : Z) : (0 <= p <= 32)%Z -> mask_forms_ok p = true.
Proof.
  intros Hp. pose proof mask_forms_all as H. rewrite forallb_forall in H.
  apply H, in_zrange_intro. lia.
Qed.

Lemma opt_z_eqb_some (o : option Z) (v : Z) : opt_z_eqb o v = true -> o = Some v.
Proof. destruct o; cbn; [intros H; apply Z.eqb_eq in H; subst; reflexivity|discriminate]. Qed.

(** X14: the text of an address followed by a mask in any of the forms
    [IPv4Network] accepts (the prefix length, the dotted netmask, or, for
    a prefix in 1..31, the dotted hostmask) gives the same network; with no
    mask the prefix length is 32. *)
Theorem IPv4Network_mask_forms (x p : Z) :
  (0 <= x < 2 ^ 32)%Z -> (0 <= p <= 32)%Z ->
  let n := {| net_ip := x; prefixlen := p |} in
  IPv4Network (ipv4_str x) = Some {| net_ip := x; prefixlen := 32 |} /\
  IPv4Network (ipv4_str x ++ "/"%char :: py_str_nat (Z.to_nat p)) = Some n /\
  IPv4Network (ipv4_str x ++ "/"%char :: ipv4_str (netmask n)) = Some n /\
  ((1 <= p <= 31)%Z -> IPv4Network (ipv4_str x ++ "/"%char :: ipv4_str (hostmask n)) = Some n).
Proof.
  intros Hx Hp n.
  pose proof (mask_forms p Hp) as M. unfold mask_forms_ok in M.
  apply andb_prop in M as [M M3]. apply andb_prop in M as [M M2].
  apply andb_prop in M as [M0 M1].
  assert (Hs : ~ In "/"%char (py_str_nat (Z.to_nat p))).
  { intros H. apply negb_true_iff in M0.
    assert (E : existsb (Ascii.eqb "/"%char) (py_str_nat (Z.to_nat p)) = true).
    { apply existsb_exists. exists "/"%char. split; [exact H|apply Ascii.eqb_refl]. }
    rewrite E in M0. discriminate. }
  split; [|split; [|split]].
  - rewrite IPv4Network_single by apply ipv4_str_slash_free.
    rewrite IPv4Address_ipv4_str by exact Hx. reflexivity.
  - rewrite IPv4Network_slash by (apply ipv4_str_slash_free || exact Hs).
    rewrite IPv4Address_ipv4_str by exact Hx.
    rewrite (opt_z_eqb_some _ _ M1). reflexivity.
  - rewrite IPv4Network_slash by apply ipv4_str_slash_free.
    rewrite IPv4Address_ipv4_str by exact Hx.
    change (netmask n) with (netmask {| net_ip := 0; prefixlen := p |}).
    rewrite (opt_z_eqb_some _ _ M2). reflexivity.
  - intros Hp'. rewrite IPv4Network_slash by apply ipv4_str_slash_free.
    rewrite IPv4Address_ipv4_str by exact Hx.
    assert (Z : (p =? 0)%Z = false /\ (p =? 32)%Z = false) by (split; apply Z.eqb_neq; lia).
    destruct Z as [Z0 Z32]. rewrite Z0, Z32 in M3. cbn [orb] in M3.
    change (hostmask n) with (hostmask {| net_ip := 0; prefixlen := p |}).
    rewrite (opt_z_eqb_some _ _ M3). reflexivity.
Qed.

Lemma IPv4Network_mask_forms_witness :
  (0 <= 3232235876 < 2 ^ 32)%Z /\ (0 <= 20 <= 32)%Z /\
  (let n := {| net_ip := 3232235876; prefixlen := 20 |} in
   IPv4Network (ipv4_str 3232235876) = Some {| net_ip := 3232235876; prefixlen := 32 |} /\
   IPv4Network (ipv4_str 3232235876 ++ "/"%char :: py_str_nat (Z.to_nat 20)) = Some n /\
   IPv4Network (ipv4_str 3232235876 ++ "/"%char :: ipv4_str (netmask n)) = Some n /\
   ((1 <= 20 <= 31)%Z ->
    IPv4Network (ipv4_str 3232235876 ++ "/"%char :: ipv4_str (hostmask n)) = Some n)).
Proof.
  assert (Hx : (0 <= 3232235876 < 2 ^ 32)%Z) by lia.
  assert (Hp : (0 <= 20 <= 32)%Z) by lia.
  exact (conj Hx (conj Hp (IPv4Network_mask_forms 3232235876 20 Hx Hp))).
Defined.

(** X15: [get_network_range] returns only a network that [validate_network]
    accepts: the stripped text of the last line it read or, when that line
    is blank and a current network exists, the current network; every line
    read before it was rejected, i.e. [validate_network] was false on the
    network it gave (its stripped text, or the current network when it was
    blank and a current network exists). *)
Theorem get_network_range_valid (current_network : text) (lines : list text)
    (network : text) (rest : list text) :
  get_network_range current_network lines = Some (network, rest) ->
  validate_network network = true /\
  exists pre l, lines = pre ++ l :: rest /\
    (network = strip l \/ (strip l = [] /\ current_network <> [] /\ network = current_network)) /\
    Forall (fun l' => validate_network
                        (match current_network with
                         | [] => strip l'
                         | _ => match strip l' with [] => current_network | _ => strip l' end
                         end) = false) pre.
Proof.
  revert rest. induction lines as [|l ls IH]; intros rest H; cbn [get_network_range] in H;
    [discriminate|].
  cbv zeta in H.
  destruct (validate_network (match current_network with
                              | [] => strip l
                              | _ => match strip l with [] => current_network | _ => strip l end
                              end)) eqn:Ev.
  - injection H as <- <-. split; [exact Ev|]. exists [], l. split; [reflexivity|].
    split; [|constructor].
    destruct current_network as [|c cs]; [left; reflexivity|].
    destruct (strip l) as [|d ds]; [right; split; [reflexivity|split; [discriminate|reflexivity]]
                                   |left; reflexivity].
  - destruct (IH rest H) as [V [pre [l' [-> [P F]]]]]. split; [exact V|].
    exists (l :: pre), l'. split; [reflexivity|]. split; [exact P|].
    constructor; [exact Ev|exact F].
Qed.

Lemma get_network_range_valid_witness :
  get_network_range (t "10.1.0.0/16") [t "bad"; t "  "] = Some (t "10.1.0.0/16", []) /\
  validate_network (t "10.1.0.0/16") = true /\
  exists pre l, [t "bad"; t "  "] = pre ++ l :: [] /\
    (t "10.1.0.0/16" = strip l \/
     (strip l = [] /\ t "10.1.0.0/16" <> [] /\ t "10.1.0.0/16" = t "10.1.0.0/16")) /\
    Forall (fun l' => validate_network
                        (match t "10.1.0.0/16" with
                         | [] => strip l'
                         | _ => match strip l' with [] => t "10.1.0.0/16" | _ => strip l' end
                         end) = false) pre.
Proof.
  assert (H : get_network_range (t "10.1.0.0/16") [t "bad"; t "  "] =
              Some (t "10.1.0.0/16", [])) by (vm_compute; reflexivity).
  exact (conj H (get_network_range_valid _ _ _ _ H)).
Defined.
